(** * Voice-Assistant RAG service: the turn pipeline of [services/RAG_service/app.py]

    A shallow embedding of the five helpers and of the [/context] endpoint.

    - A Python [str] is a sequence of Unicode code points: [pystr := list N].
      ASCII literals of the source are written [py "..."].
    - The three outside services (the chat-completion API, the Weaviate
      collection, the MySQL table) are the fields of a record [World]: each
      maps the arguments of a call to what the call does, which is to return
      a value or to raise.
    - A computation is a pair: the events it performed, in order, and its
      outcome, a value or the exception that left it.  Events are the calls
      to the outside services and the records sent to the logger [log];
      [print] to the console is left out: what is printed is taken to be
      text the console can encode, and the properties below that speak of a
      whole turn are about turns in which the Normalizer was reached.
    - A search result carries its [text] as a string, the type the
      annotation of [retrieve] gives it.
    - Exceptions are those deriving from [Exception]; what matters for the
      two handlers of the source is whether one is a [mysql.connector.Error]. *)

From Stdlib Require Import List NArith ZArith Bool String Ascii Lia.
From Stdlib Require Import Floats.SpecFloat.
Import ListNotations.

Set Implicit Arguments.

(** ** Python strings *)

Module Py.

Definition pystr : Type := list N.

Definition py (s : string) : pystr := map N_of_ascii (list_ascii_of_string s).

Definition pystr_eqb (a b : pystr) : bool :=
  if list_eq_dec N.eq_dec a b then true else false.

(** [str.isspace] on one character: the table [_PyUnicode_IsWhitespace] of
    CPython, which [str.strip()] without argument consults. *)
Definition isspace (c : N) : bool :=
  ((9 <=? c) && (c <=? 13)
   || (28 <=? c) && (c <=? 32)
   || (c =? 133) || (c =? 160) || (c =? 5760)
   || (8192 <=? c) && (c <=? 8202)
   || (c =? 8232) || (c =? 8233) || (c =? 8239) || (c =? 8287)
   || (c =? 12288))%N.

Fixpoint lstrip (s : pystr) : pystr :=
  match s with
  | c :: s' => if isspace c then lstrip s' else s
  | [] => []
  end.

Definition rstrip (s : pystr) : pystr := rev (lstrip (rev s)).

(** [s.strip()] *)
Definition strip (s : pystr) : pystr := rstrip (lstrip s).

Definition comma : N := 44.
Definition newline : N := 10.

(** [s.split(",")]: cut at every comma; the result is never empty and keeps
    empty pieces. *)
Fixpoint split_comma (s : pystr) : list pystr :=
  match s with
  | [] => [[]]
  | c :: s' =>
      if (c =? comma)%N then [] :: split_comma s'
      else match split_comma s' with
           | t :: ts => (c :: t) :: ts
           | [] => [[c]]
           end
  end.

(** [sep.join(l)] *)
Fixpoint join (sep : pystr) (l : list pystr) : pystr :=
  match l with
  | [] => []
  | [x] => x
  | x :: (_ :: _) as rest => x ++ sep ++ join sep rest
  end.

(** Truth value of a string: [bool(s)]. *)
Definition truthy_str (s : pystr) : bool :=
  match s with [] => false | _ :: _ => true end.

(** [x or d] for an optional string [x]: [None] and [""] are falsy. *)
Definition or_str (x : option pystr) (d : pystr) : pystr :=
  match x with
  | Some s => if truthy_str s then s else d
  | None => d
  end.

(** [x or d] for an optional integer [x]: [None] and [0] are falsy. *)
Definition or_int (x : option Z) (d : Z) : Z :=
  match x with
  | Some z => if (z =? 0)%Z then d else z
  | None => d
  end.

(** *** Values built by [json.loads] *)

#[local] Unset Elimination Schemes.
Inductive json : Type :=
| JNull
| JBool (b : bool)
| JInt (z : Z)
| JFloat (f : spec_float)
| JString (s : pystr)
| JArray (l : list json)
| JObject (d : list (pystr * json)).
#[local] Set Elimination Schemes.

(** A [dict] with string keys, as a list of bindings; a key is looked up
    from the front. *)
Fixpoint dict_get (V : Type) (d : list (pystr * V)) (k : pystr) : option V :=
  match d with
  | [] => None
  | (k', v) :: d' => if pystr_eqb k' k then Some v else dict_get d' k
  end.

(** [bool(v)] *)
Definition truthy (v : json) : bool :=
  match v with
  | JNull => false
  | JBool b => b
  | JInt z => negb (z =? 0)%Z
  | JFloat (S754_zero _) => false
  | JFloat _ => true
  | JString s => truthy_str s
  | JArray l => match l with [] => false | _ :: _ => true end
  | JObject d => match d with [] => false | _ :: _ => true end
  end.

(** *** Exceptions *)

Inductive exn : Type :=
| KeyError (key : pystr)
| TypeError
| AttributeError
| MySQLError (msg : pystr)       (* mysql.connector.Error and its subclasses *)
| OtherException (name : pystr). (* any other subclass of Exception *)

Definition is_mysql_error (e : exn) : bool :=
  match e with MySQLError _ => true | _ => false end.

End Py.

Import Py.

(** ** Computations: a trace of events and an outcome *)

Record message : Type := { role : pystr; content_of : pystr }.

Inductive event : Type :=
| EvChat (model : pystr) (messages : list message) (function_call : bool)
    (* openai.chat.completions.create(model, messages, ..., temperature=0);
       [function_call] tells whether [process_query] is forced *)
| EvNearText (collection : option pystr) (tags : list pystr) (limit : Z)
    (* client.collections.get(collection).query.near_text(tags, limit=limit) *)
| EvInsert (caller to reason : pystr)
    (* INSERT INTO human_escalation (caller_number, escalated_to, reason) *)
| EvLogError (fmt : pystr) (e : exn).
    (* log.error(fmt, e) *)

Definition M (A : Type) : Type := (list event * (exn + A))%type.

Definition trace (A : Type) (m : M A) : list event := fst m.
Definition outcome (A : Type) (m : M A) : exn + A := snd m.

Definition ret (A : Type) (a : A) : M A := ([], inr a).
Definition raise (A : Type) (e : exn) : M A := ([], inl e).
Arguments raise {A} e.

Definition bind (A B : Type) (m : M A) (f : A -> M B) : M B :=
  match m with
  | (t, inl e) => (t, inl e)
  | (t, inr a) => let (t', r) := f a in (t ++ t', r)
  end.

(** [try: m  except ... as e: h e] *)
Definition catch (A : Type) (m : M A) (h : exn -> M A) : M A :=
  match m with
  | (t, inl e) => let (t', r) := h e in (t ++ t', r)
  | (t, inr a) => (t, inr a)
  end.

(** One call to an outside service: the event, then what the service did. *)
Definition call (A : Type) (ev : event) (r : exn + A) : M A := ([ev], r).

Definition log_error (fmt : pystr) (e : exn) : M unit :=
  ([EvLogError fmt e], inr tt).

Notation "x <- m ;; k" := (bind m (fun x => k))
  (at level 61, m at next level, right associativity).
Notation "' pat <- m ;; k" := (bind m (fun x => match x with pat => k end))
  (at level 61, pat pattern, m at next level, right associativity).

Fixpoint mapM (A B : Type) (f : A -> M B) (l : list A) : M (list B) :=
  match l with
  | [] => ret []
  | a :: l' => b <- f a ;; bs <- mapM f l' ;; ret (b :: bs)
  end.

(** [v[key]] on a value of [json.loads] *)
Definition getitem (v : json) (key : pystr) : M json :=
  match v with
  | JObject d =>
      match dict_get d key with
      | Some x => ret x
      | None => raise (KeyError key)
      end
  | _ => raise TypeError
  end.

(** [v.strip()] on a value of [json.loads]: only [str] has the method. *)
Definition strip_method (v : json) : M pystr :=
  match v with
  | JString s => ret (strip s)
  | _ => raise AttributeError
  end.

(** ** The outside world *)

(** A result object of the vector search: its [properties]. *)
Record wobject : Type := { properties : list (pystr * pystr) }.

Record World : Type := {
  (** [os.getenv("WEAVIATE_CLASS")] *)
  VECTOR_CLASS : option pystr;
  (** [int(os.getenv("RAG_TOP_K", 4))] *)
  DEFAULT_K : Z;
  (** [json.loads(create(model, messages, functions=[fn], function_call=...)
        .choices[0].message.function_call.arguments)] *)
  chat_function_args : pystr -> list message -> exn + json;
  (** [create(model, messages).choices[0].message.content] *)
  chat_content : pystr -> list message -> exn + pystr;
  (** [client.collections.get(c).query.near_text(tags, limit=k).objects] *)
  near_text : option pystr -> list pystr -> Z -> exn + list wobject;
  (** connect, [INSERT], commit, close: [None] when all went through *)
  insert_row : pystr -> pystr -> pystr -> option exn
}.

(** ** Request and response schema *)

Record RagRequest : Type := {
  question : pystr;
  history : option pystr;
  caller_number : option pystr;
  escalated_to : option pystr;
  k : option Z
}.

Record RagResponse : Type := {
  context : pystr;
  is_escalation : bool
}.

(** ** The helpers and the endpoint *)

Definition system_msg (c : pystr) : message := {| role := py "system"; content_of := c |}.
Definition user_msg (c : pystr) : message := {| role := py "user"; content_of := c |}.

Definition rewrite_system_prompt : pystr :=
  py "Return a standalone rewritten question - basically rewrite the question so it now has no indirect references and is independent from the history."
  ++ py "Also a boolean esclation flag: False by Default. In case human exclusively states they want to interact with an human or need an esclation - only then True.  I want to make myself very clear it shouldn't be that you feel the customer needs human help and you mark True - but them explicitly asking for human help or esclation to a human. Focus, this is an important decision".

(** [f"History:\n{history or '[none]'}\n\nLatest:\n{question}"] *)
Definition rewrite_user_content (question : pystr) (history : option pystr) : pystr :=
  py "History:" ++ [newline] ++ or_str history (py "[none]")
  ++ [newline; newline] ++ py "Latest:" ++ [newline] ++ question.

Definition rewrite_msgs (question : pystr) (history : option pystr) : list message :=
  [ system_msg rewrite_system_prompt;
    user_msg (rewrite_user_content question history) ].

Definition tags_prompt (query : pystr) : pystr :=
  py "Extract 3-7 concise keywords (comma-separated, no extra text) that best represent this query:"
  ++ [newline; newline] ++ query.

Definition reason_system_prompt : pystr :=
  py "Given a conversation transcript, provide a structured summary in the format:" ++ [newline]
  ++ py "CONVERSATION: Brief 1-2 line overview of what was discussed" ++ [newline]
  ++ py "ESCALATION: Specific reason why the customer wants human assistance".

(** The call each LLM helper makes. *)
Definition normalizer_call (question : pystr) (history : option pystr) : event :=
  EvChat (py "gpt-4o") (rewrite_msgs question history) true.
Definition tag_extractor_call (query : pystr) : event :=
  EvChat (py "gpt-4o-mini") [user_msg (tags_prompt query)] false.
Definition summarizer_call (text : pystr) : event :=
  EvChat (py "gpt-4o-mini") [system_msg reason_system_prompt; user_msg text] false.

(** [[t.strip() for t in content.split(",") if t.strip()]] *)
Definition parse_tags (content : pystr) : list pystr :=
  map strip (filter (fun t => truthy_str (strip t)) (split_comma content)).

(** ["\n---\n".join(chunks)] *)
Definition delimiter : pystr := [newline; 45; 45; 45; newline]%N.
Definition join_chunks (chunks : list pystr) : pystr := join delimiter chunks.

Section App.

Variable w : World.

(** helper #1 *)
Definition rewrite_and_detect (question : pystr) (history : option pystr)
  : M (pystr * bool) :=
  let msgs := rewrite_msgs question history in
  args <- call (normalizer_call question history)
               (chat_function_args w (py "gpt-4o") msgs) ;;
  rq <- getitem args (py "rewritten_query") ;;
  rewritten <- strip_method rq ;;
  ie <- getitem args (py "is_escalation") ;;
  ret (rewritten, truthy ie).

(** helper #2 *)
Definition extract_tags (query : pystr) : M (list pystr) :=
  content <- call (tag_extractor_call query)
                  (chat_content w (py "gpt-4o-mini") [user_msg (tags_prompt query)]) ;;
  ret (parse_tags content).

(** [obj.properties["text"]] *)
Definition text_of (obj : wobject) : M pystr :=
  match dict_get (properties obj) (py "text") with
  | Some t => ret t
  | None => raise (KeyError (py "text"))
  end.

(** helper #3: every [Exception] of the body is caught *)
Definition retrieve (tags : list pystr) (k : Z) : M (list pystr) :=
  catch
    (res <- call (EvNearText (VECTOR_CLASS w) tags k)
                 (near_text w (VECTOR_CLASS w) tags k) ;;
     mapM text_of res)
    (fun e => _ <- log_error (py "Weaviate query error: %s") e ;; ret []).

(** helper #4 *)
Definition make_reason (text : pystr) : M pystr :=
  content <- call (summarizer_call text)
                  (chat_content w (py "gpt-4o-mini")
                     [system_msg reason_system_prompt; user_msg text]) ;;
  ret (strip content).

(** helper #5: only a [mysql.connector.Error] is caught *)
Definition write_escalation (caller to reason : pystr) : M unit :=
  catch
    (call (EvInsert caller to reason)
          (match insert_row w caller to reason with
           | Some e => inl e
           | None => inr tt
           end))
    (fun e => if is_mysql_error e
              then log_error (py "DB insert failed: %s") e
              else raise e).

(** main endpoint *)
Definition get_context (req : RagRequest) : M RagResponse :=
  let k := or_int (k req) (DEFAULT_K w) in
  '(rewritten, is_escalation) <- rewrite_and_detect (question req) (history req) ;;
  if (is_escalation : bool) then
    reason <- make_reason (or_str (history req) (question req)) ;;
    _ <- write_escalation (or_str (caller_number req) (py "unknown"))
                          (or_str (escalated_to req) (py "unknown"))
                          reason ;;
    ret {| context := []; is_escalation := true |}
  else
    tags <- extract_tags rewritten ;;
    chunks <- retrieve tags k ;;
    ret {| context := join_chunks chunks; is_escalation := false |}.

End App.

(** ** Which component a trace shows at work

    Each helper makes one call to an outside service, so a helper was
    invoked exactly when its call is in the trace. *)

Definition invokes_normalizer (tr : list event) : Prop :=
  exists q h, In (normalizer_call q h) tr.
Definition invokes_summarizer (tr : list event) : Prop :=
  exists text, In (summarizer_call text) tr.
Definition invokes_recorder (tr : list event) : Prop :=
  exists caller to reason, In (EvInsert caller to reason) tr.
Definition invokes_tag_extractor (tr : list event) : Prop :=
  exists query, In (tag_extractor_call query) tr.
Definition invokes_retriever (tr : list event) : Prop :=
  exists c tags k, In (EvNearText c tags k) tr.


(** The arguments line 101 can read: an object with a string under
    [rewritten_query] and any value under [is_escalation]. *)
Definition readable_args (args : json) : bool :=
  match args with
  | JObject d =>
      match dict_get d (py "rewritten_query"), dict_get d (py "is_escalation") with
      | Some (JString _), Some _ => true
      | _, _ => false
      end
  | _ => false
  end.

(** A token of a comma-separated string holds no comma. *)
Definition comma_free (t : pystr) : Prop := ~ In comma t.

(** Tag parsing in the words of the specification: of the comma-separated
    tokens, trim each, then drop the empty ones. *)
Definition spec_tags (tokens : list pystr) : list pystr :=
  filter truthy_str (map strip tokens).

(** Whitespace at the first character, at the last character. *)
Definition starts_with_space (t : pystr) : bool :=
  match t with
  | c :: _ => isspace c
  | [] => false
  end.
Definition ends_with_space (t : pystr) : bool := starts_with_space (rev t).

(** Trimming in the words of the specification, with no reference to
    [strip]: [t] is [s] with the surrounding whitespace removed when [s] is
    [t] between two runs of whitespace and [t] neither starts nor ends
    with whitespace. *)
Definition trimmed_from (s t : pystr) : Prop :=
  exists p q,
    s = p ++ t ++ q
    /\ forallb isspace p = true
    /\ forallb isspace q = true
    /\ starts_with_space t = false
    /\ ends_with_space t = false.

(** A request with one optional field replaced. *)
Definition with_k (req : RagRequest) (v : option Z) : RagRequest :=
  {| question := question req; history := history req;
     caller_number := caller_number req; escalated_to := escalated_to req;
     k := v |}.
Definition with_history (req : RagRequest) (v : option pystr) : RagRequest :=
  {| question := question req; history := v;
     caller_number := caller_number req; escalated_to := escalated_to req;
     k := k req |}.
Definition with_caller_number (req : RagRequest) (v : option pystr) : RagRequest :=
  {| question := question req; history := history req;
     caller_number := v; escalated_to := escalated_to req;
     k := k req |}.
Definition with_escalated_to (req : RagRequest) (v : option pystr) : RagRequest :=
  {| question := question req; history := history req;
     caller_number := caller_number req; escalated_to := v;
     k := k req |}.

(** ** Test doubles *)

Module Stub.

(** A world whose services answer the same whatever they are asked. *)
Definition world (args : exn + json) (content : exn + pystr)
    (objs : exn + list wobject) (db : option exn) : World :=
  {| VECTOR_CLASS := Some (py "Docs");
     DEFAULT_K := 4;
     chat_function_args := fun _ _ => args;
     chat_content := fun _ _ => content;
     near_text := fun _ _ _ => objs;
     insert_row := fun _ _ _ => db |}.

Definition args_of (rewritten : json) (esc : json) : json :=
  JObject [(py "rewritten_query", rewritten); (py "is_escalation", esc)].

Definition chunk (t : string) : wobject := {| properties := [(py "text", py t)] |}.

Definition request (q : string) : RagRequest :=
  {| question := py q; history := None; caller_number := None;
     escalated_to := None; k := None |}.

(** Continue branch, two chunks found. *)
Definition w_chunks : World :=
  world (inr (args_of (JString (py "refund policy")) (JBool false)))
        (inr (py "refund, policy, return"))
        (inr [chunk "Chunk A"; chunk "Chunk B"])
        None.

(** Continue branch, nothing found. *)
Definition w_no_chunks : World :=
  world (inr (args_of (JString (py "refund policy")) (JBool false)))
        (inr (py "refund, policy, return"))
        (inr [])
        None.

(** Continue branch, the search raises. *)
Definition w_search_down : World :=
  world (inr (args_of (JString (py "refund policy")) (JBool false)))
        (inr (py "refund, policy, return"))
        (inl (OtherException (py "WeaviateQueryError")))
        None.

(** Escalation branch, all services answer. *)
Definition w_escalate : World :=
  world (inr (args_of (JString (py "request human agent")) (JBool true)))
        (inr (py "CONVERSATION: greeting. ESCALATION: asked for a human."))
        (inr [])
        None.

(** Escalation branch, the summary call raises. *)
Definition w_summary_down : World :=
  world (inr (args_of (JString (py "request human agent")) (JBool true)))
        (inl (OtherException (py "APIConnectionError")))
        (inr [])
        None.

(** Continue branch, the keyword call raises. *)
Definition w_keywords_down : World :=
  world (inr (args_of (JString (py "refund policy")) (JBool false)))
        (inl (OtherException (py "APIConnectionError")))
        (inr [chunk "Chunk A"])
        None.

(** Escalation branch, the insert raises a [mysql.connector.Error]. *)
Definition w_db_down : World :=
  world (inr (args_of (JString (py "request human agent")) (JBool true)))
        (inr (py "CONVERSATION: greeting. ESCALATION: asked for a human."))
        (inr [])
        (Some (MySQLError (py "2003: Can't connect to MySQL server"))).

(** Escalation branch, the insert raises something else. *)
Definition w_db_type_error : World :=
  world (inr (args_of (JString (py "request human agent")) (JBool true)))
        (inr (py "CONVERSATION: greeting. ESCALATION: asked for a human."))
        (inr [])
        (Some TypeError).



(** The model rewrites the question to blanks. *)
Definition w_blank_rewrite : World :=
  world (inr (args_of (JString (py "   ")) (JBool false)))
        (inr (py "refund, policy, return"))
        (inr [])
        None.

(** Continue branch; every answer of the model comes with whitespace
    around it. *)
Definition w_padded : World :=
  world (inr (args_of (JString (py "  refund policy " ++ [newline]))
                      (JBool false)))
        (inr (py " refund , policy ,, return " ++ [newline]))
        (inr [])
        None.

End Stub.

(** ** The endpoint cut at its three steps

    Line 101 and the two arms of the [if] of [get_context], named so that
    the lemmas below can speak of them. *)

(** Line 101: read the two arguments, left to right. *)
Definition read_args (args : json) : M (pystr * bool) :=
  rq <- getitem args (py "rewritten_query") ;;
  rewritten <- strip_method rq ;;
  ie <- getitem args (py "is_escalation") ;;
  ret (rewritten, truthy ie).

(** Lines 169-176. *)
Definition escalation_branch (w : World) (req : RagRequest) : M RagResponse :=
  reason <- make_reason w (or_str (history req) (question req)) ;;
  _ <- write_escalation w (or_str (caller_number req) (py "unknown"))
                          (or_str (escalated_to req) (py "unknown"))
                          reason ;;
  ret {| context := []; is_escalation := true |}.

(** Lines 178-181. *)
Definition retrieval_branch (w : World) (req : RagRequest) (rewritten : pystr)
  : M RagResponse :=
  tags <- extract_tags w rewritten ;;
  chunks <- retrieve w tags (or_int (k req) (DEFAULT_K w)) ;;
  ret {| context := join_chunks chunks; is_escalation := false |}.

Arguments py : simpl never.

(** ** Strings: trimming, splitting, joining *)

Section Strings.

Lemma lstrip_idem (s : pystr) : lstrip (lstrip s) = lstrip s.
Proof.
  induction s as [|c s IH]; simpl; [reflexivity|].
  destruct (isspace c) eqn:E; [exact IH|].
  simpl. now rewrite E.
Qed.

(** What [lstrip] removes is a run of whitespace. *)
Lemma lstrip_split (s : pystr) :
  exists p, s = p ++ lstrip s /\ forallb isspace p = true.
Proof.
  induction s as [|c s [p [Hs Hp]]]; simpl.
  - exists []. split; reflexivity.
  - destruct (isspace c) eqn:E.
    + exists (c :: p). simpl. rewrite E, Hp. split; [now f_equal|reflexivity].
    + exists []. split; reflexivity.
Qed.

(** What [lstrip] leaves does not start with whitespace. *)
Lemma lstrip_head (s : pystr) (c : N) (r : pystr) :
  lstrip s = c :: r -> isspace c = false.
Proof.
  induction s as [|a s IH]; simpl; [discriminate|].
  destruct (isspace a) eqn:E; [exact IH|].
  intros H. injection H as -> _. exact E.
Qed.

Lemma lstrip_fixed (s : pystr) :
  match s with [] => True | c :: _ => isspace c = false end -> lstrip s = s.
Proof.
  destruct s as [|c s]; simpl; [reflexivity|]. now intros ->.
Qed.

Lemma lstrip_nil_iff (s : pystr) : lstrip s = [] <-> forallb isspace s = true.
Proof.
  induction s as [|c s IH]; simpl; [tauto|].
  destruct (isspace c); simpl; [exact IH|].
  split; discriminate.
Qed.

Lemma forallb_rev (A : Type) (f : A -> bool) (l : list A) :
  forallb f (rev l) = forallb f l.
Proof.
  induction l as [|a l IH]; simpl; [reflexivity|].
  rewrite forallb_app, IH. simpl. rewrite andb_true_r. apply andb_comm.
Qed.

(** The result of [strip] starts with no whitespace... *)
Lemma strip_head (s : pystr) :
  match strip s with [] => True | c :: _ => isspace c = false end.
Proof.
  unfold strip, rstrip.
  destruct (lstrip_split (rev (lstrip s))) as [p [Hs Hp]].
  set (b := lstrip (rev (lstrip s))) in *.
  destruct (rev b) as [|c r] eqn:Hb; [exact I|].
  assert (Ha : lstrip s = (c :: r) ++ rev p).
  { rewrite <- (rev_involutive (lstrip s)), Hs, rev_app_distr, Hb. reflexivity. }
  simpl in Ha. exact (lstrip_head _ Ha).
Qed.

(** ... and ends with none: stripping again changes nothing. *)
Lemma strip_idem (s : pystr) : strip (strip s) = strip s.
Proof.
  pose proof (strip_head s) as H.
  unfold strip at 1. rewrite (lstrip_fixed _ H).
  unfold strip, rstrip. rewrite rev_involutive, lstrip_idem. reflexivity.
Qed.

Lemma strip_nil_iff (s : pystr) : strip s = [] <-> forallb isspace s = true.
Proof.
  unfold strip, rstrip. rewrite <- lstrip_nil_iff. split.
  - intros H. apply (f_equal (@rev N)) in H. rewrite rev_involutive in H.
    simpl in H. apply lstrip_nil_iff in H. rewrite forallb_rev in H.
    apply lstrip_nil_iff in H. now rewrite lstrip_idem in H.
  - intros ->. reflexivity.
Qed.

Lemma split_comma_not_nil (s : pystr) : split_comma s <> [].
Proof.
  destruct s as [|c s]; simpl; [discriminate|].
  destruct (c =? comma)%N; [discriminate|].
  destruct (split_comma s); discriminate.
Qed.

(** Joining the pieces with commas gives the string back. *)
Lemma join_split_comma (s : pystr) : join [comma] (split_comma s) = s.
Proof.
  induction s as [|c s IH]; simpl; [reflexivity|].
  destruct (c =? comma)%N eqn:E.
  - apply N.eqb_eq in E. subst c.
    destruct (split_comma s) as [|t ts] eqn:Hs;
      [now destruct (split_comma_not_nil s)|].
    simpl. now rewrite <- IH.
  - destruct (split_comma s) as [|t ts] eqn:Hs;
      [now destruct (split_comma_not_nil s)|].
    destruct ts as [|u us]; simpl in *; now rewrite <- IH.
Qed.

Lemma split_comma_free (s : pystr) : Forall comma_free (split_comma s).
Proof.
  induction s as [|c s IH]; simpl.
  - constructor; [intros []|constructor].
  - destruct (c =? comma)%N eqn:E.
    + constructor; [intros []|exact IH].
    + apply N.eqb_neq in E.
      destruct (split_comma s) as [|t ts] eqn:Hs;
        [now destruct (split_comma_not_nil s)|].
      inversion IH as [|? ? Ht Hts]; subst.
      constructor; [|exact Hts].
      intros [H|H]; [now apply E|now apply Ht].
Qed.

Lemma split_comma_token (t : pystr) :
  comma_free t -> split_comma t = [t].
Proof.
  induction t as [|c t IH]; intros H; simpl; [reflexivity|].
  destruct (c =? comma)%N eqn:E.
  - apply N.eqb_eq in E. destruct H. now left.
  - rewrite IH; [reflexivity|]. intros Hin. apply H. now right.
Qed.

Lemma split_comma_app (t rest : pystr) :
  comma_free t ->
  split_comma (t ++ comma :: rest) = t :: split_comma rest.
Proof.
  induction t as [|c t IH]; intros H; simpl.
  - reflexivity.
  - destruct (c =? comma)%N eqn:E.
    + apply N.eqb_eq in E. destruct H. now left.
    + rewrite IH; [reflexivity|]. intros Hin. apply H. now right.
Qed.

(** The pieces are the only way to write the string as comma-free tokens
    joined with commas. *)
Lemma split_comma_join (toks : list pystr) :
  toks <> [] -> Forall comma_free toks ->
  split_comma (join [comma] toks) = toks.
Proof.
  induction toks as [|t ts IH]; intros Hne Hf; [now destruct Hne|].
  inversion Hf as [|? ? Ht Hts]; subst.
  destruct ts as [|u us].
  - simpl. now apply split_comma_token.
  - change (join [comma] (t :: u :: us))
      with (t ++ comma :: join [comma] (u :: us)).
    rewrite split_comma_app by assumption.
    rewrite IH; [reflexivity|discriminate|assumption].
Qed.

(** Trimming then dropping, or keeping-if-it-trims-to-something then
    trimming: the same list. *)
Lemma filter_map_strip (toks : list pystr) :
  map strip (filter (fun t => truthy_str (strip t)) toks) = spec_tags toks.
Proof.
  unfold spec_tags.
  induction toks as [|t ts IH]; simpl; [reflexivity|].
  destruct (truthy_str (strip t)); simpl; now rewrite IH.
Qed.

End Strings.

(** ** [strip] against the specification of trimming *)

Section Trimming.

(** [strip] cuts a run of whitespace off each end and nothing else. *)
Lemma strip_decompose (s : pystr) :
  exists p q,
    s = p ++ strip s ++ q
    /\ forallb isspace p = true /\ forallb isspace q = true.
Proof.
  destruct (lstrip_split s) as (p & Hs & Hp).
  destruct (lstrip_split (rev (lstrip s))) as (q & Hr & Hq).
  exists p, (rev q). repeat split.
  - rewrite Hs at 1. f_equal. unfold strip, rstrip.
    rewrite <- rev_app_distr, <- Hr. now rewrite rev_involutive.
  - exact Hp.
  - now rewrite forallb_rev.
Qed.

Lemma starts_with_space_lstrip (s : pystr) :
  starts_with_space (lstrip s) = false.
Proof.
  destruct (lstrip s) as [|c r] eqn:E; [reflexivity|].
  exact (lstrip_head _ E).
Qed.

Lemma strip_trimmed_from (s : pystr) : trimmed_from s (strip s).
Proof.
  destruct (strip_decompose s) as (p & q & Hd & Hp & Hq).
  exists p, q. repeat split; try assumption.
  - pose proof (strip_head s) as H. now destruct (strip s).
  - unfold ends_with_space, strip, rstrip. rewrite rev_involutive.
    apply starts_with_space_lstrip.
Qed.

(** Where the first character that is no whitespace stands is decided by
    the string. *)
Lemma space_prefix_unique (p p' x x' : pystr) :
  p ++ x = p' ++ x' ->
  forallb isspace p = true -> forallb isspace p' = true ->
  x <> [] -> x' <> [] ->
  starts_with_space x = false -> starts_with_space x' = false ->
  p = p' /\ x = x'.
Proof.
  revert p'. induction p as [|a p IH]; intros [|c p'] E Hp Hp' Hx Hx' Sx Sx'.
  - now split.
  - simpl in E. subst x. simpl in Sx, Hp'.
    rewrite Sx in Hp'. discriminate Hp'.
  - simpl in E. subst x'. simpl in Sx', Hp.
    rewrite Sx' in Hp. discriminate Hp.
  - simpl in E. injection E as <- E.
    simpl in Hp, Hp'.
    apply andb_true_iff in Hp. apply andb_true_iff in Hp'.
    destruct (IH p' E (proj2 Hp) (proj2 Hp') Hx Hx' Sx Sx') as [-> ->].
    now split.
Qed.

Lemma trimmed_from_blank (s t : pystr) :
  trimmed_from s t -> (t = [] <-> forallb isspace s = true).
Proof.
  intros (p & q & -> & Hp & Hq & Hs & _). split.
  - intros ->. simpl. now rewrite forallb_app, Hp, Hq.
  - rewrite !forallb_app. intros H.
    apply andb_true_iff in H. destruct H as [_ H].
    apply andb_true_iff in H. destruct H as [H _].
    destruct t as [|c r]; [reflexivity|].
    simpl in Hs, H. rewrite Hs in H. discriminate H.
Qed.

(** The specification of trimming names one string. *)
Lemma trimmed_from_unique (s t t' : pystr) :
  trimmed_from s t -> trimmed_from s t' -> t = t'.
Proof.
  intros H H'.
  pose proof (trimmed_from_blank H) as Hb.
  pose proof (trimmed_from_blank H') as Hb'.
  destruct t as [|c r].
  - symmetry. apply Hb'. now apply Hb.
  - destruct t' as [|c' r'].
    + apply Hb. now apply Hb'.
    + destruct H as (p & q & E & Hp & Hq & Hs & He).
      destruct H' as (p' & q' & E' & Hp' & Hq' & Hs' & He').
      rewrite E in E'.
      destruct (@space_prefix_unique p p' ((c :: r) ++ q) ((c' :: r') ++ q')
                  E' Hp Hp') as [_ Ex]; try discriminate; try assumption.
      apply (f_equal (@rev N)) in Ex. rewrite !rev_app_distr in Ex.
      destruct (@space_prefix_unique (rev q) (rev q') (rev (c :: r))
                  (rev (c' :: r')) Ex) as [_ Er];
        try (now rewrite forallb_rev); try assumption.
      * intros Hn. apply (f_equal (@rev N)) in Hn.
        rewrite rev_involutive in Hn. discriminate Hn.
      * intros Hn. apply (f_equal (@rev N)) in Hn.
        rewrite rev_involutive in Hn. discriminate Hn.
      * apply (f_equal (@rev N)) in Er. now rewrite !rev_involutive in Er.
Qed.

Lemma Forall2_trimmed_strip (toks : list pystr) :
  Forall2 trimmed_from toks (map strip toks).
Proof.
  induction toks as [|t ts IH]; constructor;
    [apply strip_trimmed_from|exact IH].
Qed.

Lemma Forall2_trimmed_unique (toks a b : list pystr) :
  Forall2 trimmed_from toks a -> Forall2 trimmed_from toks b -> a = b.
Proof.
  intros Ha. revert b.
  induction Ha as [|t x ts xs Hx _ IH]; intros b Hb; inversion Hb; subst.
  - reflexivity.
  - f_equal; [eapply trimmed_from_unique; eassumption|now apply IH].
Qed.

End Trimming.

(** ** Running the monad *)

Section Runs.

Lemma run_eta (A : Type) (m : M A) : m = (trace m, outcome m).
Proof. now destruct m. Qed.

Lemma bind_run (A B : Type) (m : M A) (f : A -> M B) :
  bind m f =
  match outcome m with
  | inl e => (trace m, inl e)
  | inr a => (trace m ++ trace (f a), outcome (f a))
  end.
Proof.
  destruct m as [t [e|a]]; simpl; [reflexivity|].
  now destruct (f a).
Qed.

Lemma catch_run (A : Type) (m : M A) (h : exn -> M A) :
  catch m h =
  match outcome m with
  | inl e => (trace m ++ trace (h e), outcome (h e))
  | inr a => (trace m, inr a)
  end.
Proof.
  destruct m as [t [e|a]]; simpl; [|reflexivity].
  now destruct (h e).
Qed.

End Runs.

(** ** The helpers, one by one *)

Section Helpers.

Variable w : World.

Lemma read_args_readable (args : json) :
  readable_args args = true ->
  exists d s v,
    args = JObject d
    /\ dict_get d (py "rewritten_query") = Some (JString s)
    /\ dict_get d (py "is_escalation") = Some v
    /\ read_args args = ([], inr (strip s, truthy v)).
Proof.
  destruct args as [| | | | |l|d]; try discriminate.
  unfold readable_args.
  destruct (dict_get d (py "rewritten_query")) as [[| | | |s| |]|] eqn:Hq;
    try discriminate.
  destruct (dict_get d (py "is_escalation")) as [v|] eqn:He; try discriminate.
  intros _. exists d, s, v. repeat split; try assumption.
  unfold read_args, getitem. rewrite Hq. simpl. rewrite He. reflexivity.
Qed.

Lemma read_args_unreadable (args : json) :
  readable_args args = false -> exists e, read_args args = ([], inl e).
Proof.
  destruct args as [| | | | |l|d];
    try (intros _; exists TypeError; reflexivity).
  unfold readable_args, read_args, getitem.
  destruct (dict_get d (py "rewritten_query")) as [[| | | |s| |]|];
    try (intros _; exists AttributeError; reflexivity);
    try (intros _; exists (KeyError (py "rewritten_query")); reflexivity).
  simpl.
  destruct (dict_get d (py "is_escalation")) as [v|]; [discriminate|].
  intros _. exists (KeyError (py "is_escalation")). reflexivity.
Qed.

Lemma read_args_trace (args : json) : trace (read_args args) = [].
Proof.
  destruct (readable_args args) eqn:H.
  - destruct (read_args_readable _ H) as (d & s & v & _ & _ & _ & ->).
    reflexivity.
  - destruct (read_args_unreadable _ H) as [e ->]. reflexivity.
Qed.

Lemma rewrite_and_detect_run (q : pystr) (h : option pystr) :
  rewrite_and_detect w q h =
  ([normalizer_call q h],
   match chat_function_args w (py "gpt-4o") (rewrite_msgs q h) with
   | inl e => inl e
   | inr args => outcome (read_args args)
   end).
Proof.
  change (rewrite_and_detect w q h)
    with (bind (call (normalizer_call q h)
                     (chat_function_args w (py "gpt-4o") (rewrite_msgs q h)))
               read_args).
  rewrite bind_run. unfold call, outcome at 1, trace at 1 2. simpl fst; simpl snd.
  destruct (chat_function_args w (py "gpt-4o") (rewrite_msgs q h)) as [e|args];
    [reflexivity|].
  rewrite read_args_trace. reflexivity.
Qed.

Lemma rewrite_and_detect_trace (q : pystr) (h : option pystr) :
  trace (rewrite_and_detect w q h) = [normalizer_call q h].
Proof. now rewrite rewrite_and_detect_run. Qed.

(** When the Normalizer returns, it has read readable arguments. *)
Lemma rewrite_and_detect_returns (q : pystr) (h : option pystr)
    (rw : pystr) (esc : bool) :
  outcome (rewrite_and_detect w q h) = inr (rw, esc) ->
  exists d s v,
    chat_function_args w (py "gpt-4o") (rewrite_msgs q h) = inr (JObject d)
    /\ dict_get d (py "rewritten_query") = Some (JString s)
    /\ dict_get d (py "is_escalation") = Some v
    /\ rw = strip s /\ esc = truthy v.
Proof.
  rewrite rewrite_and_detect_run. unfold outcome at 1. simpl snd.
  destruct (chat_function_args w (py "gpt-4o") (rewrite_msgs q h)) as [e|args];
    [discriminate|].
  destruct (readable_args args) eqn:H.
  - destruct (read_args_readable _ H) as (d & s & v & -> & Hq & He & ->).
    intros E. injection E as <- <-. exists d, s, v. auto.
  - destruct (read_args_unreadable _ H) as [e ->]. discriminate.
Qed.

Lemma extract_tags_run (query : pystr) :
  extract_tags w query =
  ([tag_extractor_call query],
   match chat_content w (py "gpt-4o-mini") [user_msg (tags_prompt query)] with
   | inl e => inl e
   | inr content => inr (parse_tags content)
   end).
Proof.
  unfold extract_tags, call, bind, ret.
  now destruct (chat_content w (py "gpt-4o-mini") [user_msg (tags_prompt query)]).
Qed.

Lemma make_reason_run (text : pystr) :
  make_reason w text =
  ([summarizer_call text],
   match chat_content w (py "gpt-4o-mini")
           [system_msg reason_system_prompt; user_msg text] with
   | inl e => inl e
   | inr content => inr (strip content)
   end).
Proof.
  unfold make_reason, call, bind, ret.
  now destruct (chat_content w (py "gpt-4o-mini")
                  [system_msg reason_system_prompt; user_msg text]).
Qed.

Lemma mapM_text_of_trace (objs : list wobject) :
  trace (mapM text_of objs) = [].
Proof.
  induction objs as [|o objs IH]; [reflexivity|].
  simpl. rewrite bind_run. unfold text_of at 1 2 3.
  destruct (dict_get (properties o) (py "text")) as [t|]; [|reflexivity].
  simpl. rewrite bind_run, IH.
  now destruct (outcome (mapM text_of objs)).
Qed.


(** [write_escalation], by what the insert did. *)
Lemma write_escalation_run (caller to reason : pystr) :
  write_escalation w caller to reason =
  match insert_row w caller to reason with
  | None => ([EvInsert caller to reason], inr tt)
  | Some e =>
      if is_mysql_error e
      then ([EvInsert caller to reason;
             EvLogError (py "DB insert failed: %s") e], inr tt)
      else ([EvInsert caller to reason], inl e)
  end.
Proof.
  unfold write_escalation, catch, call.
  destruct (insert_row w caller to reason) as [e|]; [|reflexivity].
  now destruct e.
Qed.

(** [retrieve] never raises; what it does is the search, and a record in
    the log when the body failed. *)
Lemma retrieve_run (tags : list pystr) (k : Z) :
  retrieve w tags k =
  match near_text w (VECTOR_CLASS w) tags k with
  | inl e =>
      ([EvNearText (VECTOR_CLASS w) tags k;
        EvLogError (py "Weaviate query error: %s") e], inr [])
  | inr objs =>
      match outcome (mapM text_of objs) with
      | inl e =>
          ([EvNearText (VECTOR_CLASS w) tags k;
            EvLogError (py "Weaviate query error: %s") e], inr [])
      | inr chunks => ([EvNearText (VECTOR_CLASS w) tags k], inr chunks)
      end
  end.
Proof.
  unfold retrieve.
  destruct (near_text w (VECTOR_CLASS w) tags k) as [e|objs]; [reflexivity|].
  unfold call, bind, catch.
  rewrite (run_eta (mapM text_of objs)), mapM_text_of_trace.
  now destruct (outcome (mapM text_of objs)).
Qed.


End Helpers.

(** ** The endpoint *)

Section Endpoint.

Variable w : World.

Lemma get_context_run (req : RagRequest) :
  get_context w req =
  match outcome (rewrite_and_detect w (question req) (history req)) with
  | inl e => ([normalizer_call (question req) (history req)], inl e)
  | inr (rw, true) =>
      (normalizer_call (question req) (history req)
         :: trace (escalation_branch w req),
       outcome (escalation_branch w req))
  | inr (rw, false) =>
      (normalizer_call (question req) (history req)
         :: trace (retrieval_branch w req rw),
       outcome (retrieval_branch w req rw))
  end.
Proof.
  change (get_context w req)
    with (bind (rewrite_and_detect w (question req) (history req))
               (fun x => match x with
                         | (rw, esc) =>
                             if (esc : bool) then escalation_branch w req
                             else retrieval_branch w req rw
                         end)).
  rewrite bind_run, rewrite_and_detect_trace.
  destruct (outcome (rewrite_and_detect w (question req) (history req)))
    as [e|[rw [|]]]; reflexivity.
Qed.

Lemma get_context_trace (req : RagRequest) :
  trace (get_context w req) =
  normalizer_call (question req) (history req) ::
  match outcome (rewrite_and_detect w (question req) (history req)) with
  | inl e => []
  | inr (rw, true) => trace (escalation_branch w req)
  | inr (rw, false) => trace (retrieval_branch w req rw)
  end.
Proof.
  rewrite get_context_run.
  now destruct (outcome (rewrite_and_detect w (question req) (history req)))
    as [e|[rw [|]]].
Qed.

Lemma get_context_outcome (req : RagRequest) :
  outcome (get_context w req) =
  match outcome (rewrite_and_detect w (question req) (history req)) with
  | inl e => inl e
  | inr (rw, true) => outcome (escalation_branch w req)
  | inr (rw, false) => outcome (retrieval_branch w req rw)
  end.
Proof.
  rewrite get_context_run.
  now destruct (outcome (rewrite_and_detect w (question req) (history req)))
    as [e|[rw [|]]].
Qed.

Lemma make_reason_trace (text : pystr) :
  trace (make_reason w text) = [summarizer_call text].
Proof. now rewrite make_reason_run. Qed.

Lemma extract_tags_trace (query : pystr) :
  trace (extract_tags w query) = [tag_extractor_call query].
Proof. now rewrite extract_tags_run. Qed.

Lemma escalation_branch_run (req : RagRequest) :
  let text := or_str (history req) (question req) in
  let caller := or_str (caller_number req) (py "unknown") in
  let to := or_str (escalated_to req) (py "unknown") in
  escalation_branch w req =
  match outcome (make_reason w text) with
  | inl e => ([summarizer_call text], inl e)
  | inr reason =>
      (summarizer_call text :: trace (write_escalation w caller to reason),
       match outcome (write_escalation w caller to reason) with
       | inl e => inl e
       | inr _ => inr {| context := []; is_escalation := true |}
       end)
  end.
Proof.
  intros text caller to. unfold escalation_branch. fold text caller to.
  rewrite bind_run, make_reason_trace.
  destruct (outcome (make_reason w text)) as [e|reason]; [reflexivity|].
  rewrite bind_run.
  destruct (outcome (write_escalation w caller to reason)) as [e|[]];
    simpl; [reflexivity|].
  now rewrite app_nil_r.
Qed.

Lemma retrieval_branch_run (req : RagRequest) (rw : pystr) :
  let kk := or_int (k req) (DEFAULT_K w) in
  retrieval_branch w req rw =
  match outcome (extract_tags w rw) with
  | inl e => ([tag_extractor_call rw], inl e)
  | inr tags =>
      (tag_extractor_call rw :: trace (retrieve w tags kk),
       match outcome (retrieve w tags kk) with
       | inl e => inl e
       | inr chunks =>
           inr {| context := join_chunks chunks; is_escalation := false |}
       end)
  end.
Proof.
  intros kk. unfold retrieval_branch. fold kk.
  rewrite bind_run, extract_tags_trace.
  destruct (outcome (extract_tags w rw)) as [e|tags]; [reflexivity|].
  rewrite bind_run.
  destruct (outcome (retrieve w tags kk)) as [e|chunks];
    simpl; [reflexivity|].
  now rewrite app_nil_r.
Qed.

Lemma escalation_branch_outcome (req : RagRequest) :
  outcome (escalation_branch w req) =
  match outcome (make_reason w (or_str (history req) (question req))) with
  | inl e => inl e
  | inr reason =>
      match outcome (write_escalation w
                       (or_str (caller_number req) (py "unknown"))
                       (or_str (escalated_to req) (py "unknown")) reason) with
      | inl e => inl e
      | inr _ => inr {| context := []; is_escalation := true |}
      end
  end.
Proof.
  pose proof (escalation_branch_run req) as H. cbv zeta in H. rewrite H.
  now destruct (outcome (make_reason w _)).
Qed.

Lemma retrieval_branch_outcome (req : RagRequest) (rw : pystr) :
  outcome (retrieval_branch w req rw) =
  match outcome (extract_tags w rw) with
  | inl e => inl e
  | inr tags =>
      match outcome (retrieve w tags (or_int (k req) (DEFAULT_K w))) with
      | inl e => inl e
      | inr chunks =>
          inr {| context := join_chunks chunks; is_escalation := false |}
      end
  end.
Proof.
  pose proof (retrieval_branch_run req rw) as H. cbv zeta in H. rewrite H.
  now destruct (outcome (extract_tags w rw)).
Qed.

(** What an escalation turn leaves in the trace after the Normalizer. *)
Lemma escalation_branch_trace (req : RagRequest) :
  let text := or_str (history req) (question req) in
  let caller := or_str (caller_number req) (py "unknown") in
  let to := or_str (escalated_to req) (py "unknown") in
  match outcome (make_reason w text) with
  | inl _ => trace (escalation_branch w req) = [summarizer_call text]
  | inr reason =>
      exists logged,
        trace (escalation_branch w req) =
          summarizer_call text :: EvInsert caller to reason :: logged
        /\ Forall (fun ev => exists f e, ev = EvLogError f e) logged
  end.
Proof.
  intros text caller to.
  pose proof (escalation_branch_run req) as H. cbv zeta in H.
  fold text caller to in H. rewrite H; clear H.
  destruct (outcome (make_reason w text)) as [e|reason]; [reflexivity|].
  rewrite write_escalation_run.
  destruct (insert_row w caller to reason) as [e|].
  - destruct (is_mysql_error e).
    + eexists. split; [reflexivity|]. repeat constructor. eauto.
    + exists []. split; [reflexivity|constructor].
  - exists []. split; [reflexivity|constructor].
Qed.

(** What a retrieval turn leaves in the trace after the Normalizer. *)
Lemma retrieval_branch_trace (req : RagRequest) (rw : pystr) :
  let kk := or_int (k req) (DEFAULT_K w) in
  match outcome (extract_tags w rw) with
  | inl _ => trace (retrieval_branch w req rw) = [tag_extractor_call rw]
  | inr tags =>
      exists logged,
        trace (retrieval_branch w req rw) =
          tag_extractor_call rw :: EvNearText (VECTOR_CLASS w) tags kk :: logged
        /\ Forall (fun ev => exists f e, ev = EvLogError f e) logged
  end.
Proof.
  intros kk.
  pose proof (retrieval_branch_run req rw) as H. cbv zeta in H.
  fold kk in H. rewrite H; clear H.
  destruct (outcome (extract_tags w rw)) as [e|tags]; [reflexivity|].
  rewrite retrieve_run.
  destruct (near_text w (VECTOR_CLASS w) tags kk) as [e|objs].
  - eexists. split; [reflexivity|]. repeat constructor. eauto.
  - destruct (outcome (mapM text_of objs)) as [e|chunks].
    + eexists. split; [reflexivity|]. repeat constructor. eauto.
    + exists []. split; [reflexivity|constructor].
Qed.

End Endpoint.

(** ** Properties of a turn *)

Unset Implicit Arguments.

(** An event that is none of the calls of the other components. *)
Ltac absurd_event H :=
  unfold normalizer_call, summarizer_call, tag_extractor_call in H;
  first [ discriminate H
        | let E := fresh in injection H as E; discriminate E ].

(** No event of the given kind is in a trace made of explicit events and a
    tail of log records. *)
Ltac not_in_trace H Hlog :=
  repeat (destruct H as [H|H]; [absurd_event H|]);
  try (rewrite Forall_forall in Hlog;
       let f := fresh in let e := fresh in let E := fresh in
       destruct (Hlog _ H) as (f & e & E); absurd_event E);
  try (now destruct H).

(** The event at a given position of an explicit trace is of the kind asked. *)
Tactic Notation "exists_event" integer(n) :=
  repeat eexists; cbn [In]; do n right; left; reflexivity.

(** C1 (as amended): a turn that returns with [is_escalation = true] returns
    the empty context.  The converse is not a property of the code: see
    [empty_context_without_escalation]. *)
Theorem escalation_has_empty_context (w : World) (req : RagRequest)
    (r : RagResponse) :
  outcome (get_context w req) = inr r ->
  is_escalation r = true ->
  context r = [].
Proof.
  rewrite get_context_outcome.
  destruct (outcome (rewrite_and_detect w (question req) (history req)))
    as [e|[rw [|]]].
  - discriminate.
  - rewrite escalation_branch_outcome.
    destruct (outcome (make_reason w _)) as [e|reason]; [discriminate|].
    destruct (outcome (write_escalation w _ _ reason)); [discriminate|].
    intros E _. now injection E as <-.
  - rewrite retrieval_branch_outcome.
    destruct (outcome (extract_tags w rw)) as [e|tags]; [discriminate|].
    destruct (outcome (retrieve w tags _)); [discriminate|].
    intros E. injection E as <-. discriminate.
Qed.

Lemma escalation_has_empty_context_witness :
  let req := Stub.request "I want to speak to a human" in
  let r := {| context := []; is_escalation := true |} in
  outcome (get_context Stub.w_escalate req) = inr r
  /\ is_escalation r = true
  /\ context r = [].
Proof.
  intros req r.
  assert (H : outcome (get_context Stub.w_escalate req) = inr r)
    by reflexivity.
  split; [exact H|]. split; [reflexivity|].
  apply (escalation_has_empty_context Stub.w_escalate req r H).
  reflexivity.
Defined.

(** C1 (as stated) fails from right to left: a turn whose search finds
    nothing returns the empty context with [is_escalation = false]. *)
Lemma empty_context_without_escalation :
  exists r,
    outcome (get_context Stub.w_no_chunks
               (Stub.request "what about refunds?")) = inr r
    /\ ~ (is_escalation r = true <-> context r = []).
Proof.
  exists {| context := []; is_escalation := false |}.
  split; [reflexivity|].
  intros [_ H]. specialize (H eq_refl). discriminate H.
Qed.

(** C2 (as amended): the two branches exclude each other.  When the
    Normalizer reports an escalation the turn calls the Summarizer and,
    once the Summarizer has returned, the Recorder, and calls neither the
    Tag Extractor nor the Retriever; when it reports none the turn calls
    the Tag Extractor and, once that has returned, the Retriever, and calls
    neither the Summarizer nor the Recorder. *)
Theorem branches_exclude_each_other (w : World) (req : RagRequest)
    (rw : pystr) (esc : bool) :
  outcome (rewrite_and_detect w (question req) (history req)) = inr (rw, esc) ->
  let tr := trace (get_context w req) in
  if esc then
    invokes_summarizer tr
    /\ ((exists reason,
           outcome (make_reason w (or_str (history req) (question req)))
           = inr reason) -> invokes_recorder tr)
    /\ ~ invokes_tag_extractor tr
    /\ ~ invokes_retriever tr
  else
    invokes_tag_extractor tr
    /\ ((exists tags, outcome (extract_tags w rw) = inr tags) ->
        invokes_retriever tr)
    /\ ~ invokes_summarizer tr
    /\ ~ invokes_recorder tr.
Proof.
  intros Hn tr. subst tr. rewrite get_context_trace, Hn.
  destruct esc.
  - pose proof (escalation_branch_trace w req) as H. cbv zeta in H.
    destruct (outcome (make_reason w _)) as [e|reason].
    + rewrite H. repeat split.
      * exists_event 1.
      * intros [reason Hr]. discriminate Hr.
      * intros (q & Hq). not_in_trace Hq I.
      * intros (c & t & kk & Hq). not_in_trace Hq I.
    + destruct H as (logged & -> & Hlog). repeat split.
      * exists_event 1.
      * intros _. exists_event 2.
      * intros (q & Hq). not_in_trace Hq Hlog.
      * intros (c & t & kk & Hq). not_in_trace Hq Hlog.
  - pose proof (retrieval_branch_trace w req rw) as H. cbv zeta in H.
    destruct (outcome (extract_tags w rw)) as [e|tags].
    + rewrite H. repeat split.
      * exists_event 1.
      * intros [tags Hr]. discriminate Hr.
      * intros (q & Hq). not_in_trace Hq I.
      * intros (c & t & r & Hq). not_in_trace Hq I.
    + destruct H as (logged & -> & Hlog). repeat split.
      * exists_event 1.
      * intros _. exists_event 2.
      * intros (q & Hq). not_in_trace Hq Hlog.
      * intros (c & t & r & Hq). not_in_trace Hq Hlog.
Qed.

Lemma branches_exclude_each_other_witness :
  let req := Stub.request "I want to speak to a human" in
  outcome (rewrite_and_detect Stub.w_escalate (question req) (history req))
  = inr (py "request human agent", true)
  /\ invokes_summarizer (trace (get_context Stub.w_escalate req))
  /\ invokes_recorder (trace (get_context Stub.w_escalate req)).
Proof.
  intros req.
  assert (H : outcome (rewrite_and_detect Stub.w_escalate
                         (question req) (history req))
              = inr (py "request human agent", true)) by reflexivity.
  destruct (branches_exclude_each_other Stub.w_escalate req _ _ H)
    as (Hs & Hr & _ & _).
  split; [exact H|]. split; [exact Hs|].
  apply Hr. eexists. reflexivity.
Defined.

(** C2 (as stated) fails when the summary call raises: the Normalizer has
    reported an escalation, the Summarizer is called, and the exception
    leaves the turn before the Recorder is reached. *)
Lemma recorder_skipped_when_summary_raises :
  let req := Stub.request "I want to speak to a human" in
  outcome (rewrite_and_detect Stub.w_summary_down (question req) (history req))
  = inr (py "request human agent", true)
  /\ trace (get_context Stub.w_summary_down req)
     = [normalizer_call (question req) (history req);
        summarizer_call (question req)]
  /\ ~ invokes_recorder (trace (get_context Stub.w_summary_down req)).
Proof.
  intros req.
  assert (Ht : trace (get_context Stub.w_summary_down req)
               = [normalizer_call (question req) (history req);
                  summarizer_call (question req)]) by reflexivity.
  split; [reflexivity|]. split; [exact Ht|].
  rewrite Ht. intros (c & t & r & H). not_in_trace H I.
Qed.




(** C4: in a turn without escalation whose vector-search call raises,
    [retrieve] returns the empty list, the exception goes to the log and no
    further, and the turn returns the empty context with
    [is_escalation = false]. *)
Theorem search_error_gives_empty_context (w : World) (req : RagRequest)
    (rw : pystr) (tags : list pystr) (e : exn) :
  let kk := or_int (k req) (DEFAULT_K w) in
  outcome (rewrite_and_detect w (question req) (history req)) = inr (rw, false) ->
  outcome (extract_tags w rw) = inr tags ->
  near_text w (VECTOR_CLASS w) tags kk = inl e ->
  retrieve w tags kk
  = ([EvNearText (VECTOR_CLASS w) tags kk;
      EvLogError (py "Weaviate query error: %s") e], inr [])
  /\ outcome (get_context w req)
     = inr {| context := []; is_escalation := false |}.
Proof.
  intros kk Hn Ht Hs.
  assert (Hr : retrieve w tags kk
               = ([EvNearText (VECTOR_CLASS w) tags kk;
                   EvLogError (py "Weaviate query error: %s") e], inr []))
    by now rewrite retrieve_run, Hs.
  split; [exact Hr|].
  rewrite get_context_outcome, Hn, retrieval_branch_outcome, Ht.
  fold kk. now rewrite Hr.
Qed.

Lemma search_error_gives_empty_context_witness :
  let w := Stub.w_search_down in
  let req := Stub.request "what about refunds?" in
  near_text w (VECTOR_CLASS w) [py "refund"; py "policy"; py "return"] 4
  = inl (OtherException (py "WeaviateQueryError"))
  /\ outcome (get_context w req)
     = inr {| context := []; is_escalation := false |}.
Proof.
  intros w req. split; [reflexivity|].
  refine (proj2 (search_error_gives_empty_context w req (py "refund policy")
                   [py "refund"; py "policy"; py "return"]
                   (OtherException (py "WeaviateQueryError")) _ _ _));
    reflexivity.
Defined.

(** C5 (as amended): in an escalation turn whose insert raises a
    [mysql.connector.Error], [write_escalation] sends the error to the log
    and returns, and the turn returns the empty context with
    [is_escalation = true], as it does when the insert goes through.  An
    exception of another class is not caught: see
    [other_insert_error_fails_the_turn]. *)
Theorem mysql_error_is_swallowed (w : World) (req : RagRequest)
    (rw reason msg : pystr) :
  let caller := or_str (caller_number req) (py "unknown") in
  let to := or_str (escalated_to req) (py "unknown") in
  outcome (rewrite_and_detect w (question req) (history req)) = inr (rw, true) ->
  outcome (make_reason w (or_str (history req) (question req))) = inr reason ->
  insert_row w caller to reason = Some (MySQLError msg) ->
  write_escalation w caller to reason
  = ([EvInsert caller to reason;
      EvLogError (py "DB insert failed: %s") (MySQLError msg)], inr tt)
  /\ outcome (get_context w req)
     = inr {| context := []; is_escalation := true |}.
Proof.
  intros caller to Hn Hr Hi.
  assert (Hw : write_escalation w caller to reason
               = ([EvInsert caller to reason;
                   EvLogError (py "DB insert failed: %s") (MySQLError msg)],
                  inr tt))
    by now rewrite write_escalation_run, Hi.
  split; [exact Hw|].
  rewrite get_context_outcome, Hn, escalation_branch_outcome, Hr.
  fold caller to. now rewrite Hw.
Qed.

Lemma mysql_error_is_swallowed_witness :
  let w := Stub.w_db_down in
  let req := Stub.request "I want to speak to a human" in
  insert_row w (py "unknown") (py "unknown")
    (py "CONVERSATION: greeting. ESCALATION: asked for a human.")
  = Some (MySQLError (py "2003: Can't connect to MySQL server"))
  /\ outcome (get_context w req)
     = inr {| context := []; is_escalation := true |}.
Proof.
  intros w req. split; [reflexivity|].
  refine (proj2 (mysql_error_is_swallowed w req (py "request human agent")
                   (py "CONVERSATION: greeting. ESCALATION: asked for a human.")
                   (py "2003: Can't connect to MySQL server") _ _ _));
    reflexivity.
Defined.

(** C5 (as stated) fails for an insert that raises outside
    [mysql.connector.Error]: [write_escalation] lets a [TypeError] through
    and the turn ends with it instead of returning a response. *)
Lemma other_insert_error_fails_the_turn :
  let w := Stub.w_db_type_error in
  let req := Stub.request "I want to speak to a human" in
  outcome (rewrite_and_detect w (question req) (history req))
  = inr (py "request human agent", true)
  /\ insert_row w (py "unknown") (py "unknown")
       (py "CONVERSATION: greeting. ESCALATION: asked for a human.")
     = Some TypeError
  /\ outcome (write_escalation w (py "unknown") (py "unknown")
                (py "CONVERSATION: greeting. ESCALATION: asked for a human."))
     = inl TypeError
  /\ outcome (get_context w req) = inl TypeError.
Proof. intros w req. repeat split. Qed.



(** Whatever the turn does, each call it makes carries the arguments the
    endpoint computed from the request. *)
Lemma summarizer_argument (w : World) (req : RagRequest) (text : pystr) :
  In (summarizer_call text) (trace (get_context w req)) ->
  text = or_str (history req) (question req).
Proof.
  rewrite get_context_trace. intros [H|H]; [absurd_event H|].
  destruct (outcome (rewrite_and_detect w (question req) (history req)))
    as [e|[rw [|]]]; [now destruct H| |].
  - pose proof (escalation_branch_trace w req) as Ht. cbv zeta in Ht.
    destruct (outcome (make_reason w _)) as [e|reason].
    + rewrite Ht in H. destruct H as [H|[]].
      unfold summarizer_call in H. now injection H.
    + destruct Ht as (logged & Ht & Hlog). rewrite Ht in H.
      destruct H as [H|H]; [unfold summarizer_call in H; now injection H|].
      not_in_trace H Hlog.
  - pose proof (retrieval_branch_trace w req rw) as Ht. cbv zeta in Ht.
    destruct (outcome (extract_tags w rw)) as [e|tags].
    + rewrite Ht in H. not_in_trace H I.
    + destruct Ht as (logged & Ht & Hlog). rewrite Ht in H.
      not_in_trace H Hlog.
Qed.

Lemma recorder_arguments (w : World) (req : RagRequest)
    (caller to reason : pystr) :
  In (EvInsert caller to reason) (trace (get_context w req)) ->
  caller = or_str (caller_number req) (py "unknown")
  /\ to = or_str (escalated_to req) (py "unknown")
  /\ outcome (make_reason w (or_str (history req) (question req)))
     = inr reason.
Proof.
  rewrite get_context_trace. intros [H|H]; [absurd_event H|].
  destruct (outcome (rewrite_and_detect w (question req) (history req)))
    as [e|[rw [|]]]; [now destruct H| |].
  - pose proof (escalation_branch_trace w req) as Ht. cbv zeta in Ht.
    destruct (outcome (make_reason w _)) as [e|reason'].
    + rewrite Ht in H. not_in_trace H I.
    + destruct Ht as (logged & Ht & Hlog). rewrite Ht in H.
      destruct H as [H|H]; [absurd_event H|].
      destruct H as [H|H]; [injection H as <- <- <-; auto|].
      not_in_trace H Hlog.
  - pose proof (retrieval_branch_trace w req rw) as Ht. cbv zeta in Ht.
    destruct (outcome (extract_tags w rw)) as [e|tags].
    + rewrite Ht in H. not_in_trace H I.
    + destruct Ht as (logged & Ht & Hlog). rewrite Ht in H.
      not_in_trace H Hlog.
Qed.

(** C7 (as amended): in an escalation turn the Summarizer is called on the
    history when the history is present and not empty, and on the question
    when the history is absent or empty; once the Summarizer has returned,
    the Recorder is called, with ["unknown"] for the caller when the
    request has no caller number and ["unknown"] for the target when it has
    no escalation target. *)
Theorem escalation_call_arguments (w : World) (req : RagRequest) (rw : pystr) :
  outcome (rewrite_and_detect w (question req) (history req)) = inr (rw, true) ->
  let tr := trace (get_context w req) in
  (forall s, history req = Some s -> s <> [] -> In (summarizer_call s) tr)
  /\ (history req = None \/ history req = Some [] ->
      In (summarizer_call (question req)) tr)
  /\ (forall text, In (summarizer_call text) tr ->
      text = or_str (history req) (question req))
  /\ (forall reason,
        outcome (make_reason w (or_str (history req) (question req)))
        = inr reason ->
        (exists caller to, In (EvInsert caller to reason) tr)
        /\ (caller_number req = None ->
            exists to, In (EvInsert (py "unknown") to reason) tr)
        /\ (escalated_to req = None ->
            exists caller, In (EvInsert caller (py "unknown") reason) tr)
        /\ (forall caller to r, In (EvInsert caller to r) tr ->
            caller = or_str (caller_number req) (py "unknown")
            /\ to = or_str (escalated_to req) (py "unknown")
            /\ r = reason)).
Proof.
  intros Hn tr.
  assert (Hs : In (summarizer_call (or_str (history req) (question req))) tr).
  { subst tr. rewrite get_context_trace, Hn.
    pose proof (escalation_branch_trace w req) as Ht. cbv zeta in Ht.
    destruct (outcome (make_reason w _)) as [e|reason].
    - rewrite Ht. right. now left.
    - destruct Ht as (logged & -> & _). right. now left. }
  split; [|split; [|split]].
  - intros s Hh Hne. rewrite Hh in Hs. destruct s; [now destruct Hne|exact Hs].
  - intros [Hh|Hh]; rewrite Hh in Hs; exact Hs.
  - intros text. apply summarizer_argument.
  - intros reason Hr.
    assert (Hi : In (EvInsert (or_str (caller_number req) (py "unknown"))
                       (or_str (escalated_to req) (py "unknown")) reason) tr).
    { subst tr. rewrite get_context_trace, Hn.
      pose proof (escalation_branch_trace w req) as Ht. cbv zeta in Ht.
      rewrite Hr in Ht. destruct Ht as (logged & -> & _).
      right. right. now left. }
    split; [eauto|]. split; [|split].
    + intros Hc. rewrite Hc in Hi. eauto.
    + intros Hc. rewrite Hc in Hi. eauto.
    + intros caller to r Hin.
      destruct (recorder_arguments w req _ _ _ Hin) as (-> & -> & Hr').
      rewrite Hr in Hr'. now injection Hr' as ->.
Qed.

Lemma escalation_call_arguments_witness :
  let w := Stub.w_escalate in
  let req := Stub.request "I want to speak to a human" in
  outcome (rewrite_and_detect w (question req) (history req))
  = inr (py "request human agent", true)
  /\ In (summarizer_call (py "I want to speak to a human"))
        (trace (get_context w req))
  /\ exists to reason,
       In (EvInsert (py "unknown") to reason) (trace (get_context w req)).
Proof.
  intros w req.
  assert (Hn : outcome (rewrite_and_detect w (question req) (history req))
               = inr (py "request human agent", true)) by reflexivity.
  destruct (escalation_call_arguments w req _ Hn) as (_ & Hq & _ & Hi).
  split; [exact Hn|]. split; [apply Hq; now left|].
  destruct (Hi (strip (py "CONVERSATION: greeting. ESCALATION: asked for a human."))
              eq_refl) as (_ & Hc & _).
  destruct (Hc eq_refl) as [to Hto]. eauto.
Defined.

(** C7 (as stated) fails for a history that is present and empty: the
    Summarizer is called on the question, not on the history. *)
Lemma empty_history_is_not_summarized :
  let w := Stub.w_escalate in
  let req := with_history (Stub.request "I want to speak to a human") (Some []) in
  outcome (rewrite_and_detect w (question req) (history req))
  = inr (py "request human agent", true)
  /\ history req = Some []
  /\ In (summarizer_call (question req)) (trace (get_context w req))
  /\ ~ In (summarizer_call []) (trace (get_context w req)).
Proof.
  intros w req. split; [reflexivity|]. split; [reflexivity|]. split.
  - vm_compute. right. left. reflexivity.
  - intros H. apply summarizer_argument in H. discriminate H.
Qed.

Lemma spec_tags_all_blank (toks : list pystr) :
  Forall (fun t => strip t = []) toks -> spec_tags toks = [].
Proof.
  unfold spec_tags.
  induction 1 as [|t ts Ht _ IH]; simpl; [reflexivity|].
  now rewrite Ht.
Qed.

Lemma spec_tags_repeat (n : nat) :
  spec_tags (repeat (py "a") n) = repeat (py "a") n.
Proof.
  unfold spec_tags.
  induction n as [|n IH]; [reflexivity|].
  simpl repeat. simpl map. simpl filter.
  change (strip (py "a")) with (py "a").
  change (truthy_str (py "a")) with true.
  cbv iota. now rewrite IH.
Qed.

Lemma parse_tags_tokens (toks : list pystr) :
  toks <> [] -> Forall comma_free toks ->
  parse_tags (join [comma] toks) = spec_tags toks.
Proof.
  intros Hne Hf. unfold parse_tags.
  now rewrite filter_map_strip, split_comma_join.
Qed.

Lemma parse_tags_any_length (n : nat) :
  exists content, List.length (parse_tags content) = n.
Proof.
  destruct n as [|n].
  - exists []. reflexivity.
  - exists (join [comma] (repeat (py "a") (S n))).
    rewrite parse_tags_tokens.
    + now rewrite spec_tags_repeat, repeat_length.
    + discriminate.
    + apply Forall_forall. intros t Ht. apply repeat_spec in Ht. subst t.
      intros [H|[]]. discriminate H.
Qed.

(** C8: whatever string the keyword call returns, [extract_tags] returns
    its comma-separated tokens, each with the whitespace around it removed,
    the empty ones dropped, in their order.  Trimming is stated against
    [trimmed_from], which names one string and does not mention [strip].
    The number of tags is not checked: every length occurs, and a string
    all of whose tokens are blank gives the empty list, not an
    exception. *)
Theorem tags_are_trimmed_tokens (w : World) (query content : pystr) :
  chat_content w (py "gpt-4o-mini") [user_msg (tags_prompt query)]
  = inr content ->
  (exists toks,
     toks <> [] /\ Forall comma_free toks /\ join [comma] toks = content)
  /\ (forall toks,
        toks <> [] -> Forall comma_free toks -> join [comma] toks = content ->
        exists trimmed,
          Forall2 trimmed_from toks trimmed
          /\ (forall other, Forall2 trimmed_from toks other -> other = trimmed)
          /\ outcome (extract_tags w query) = inr (filter truthy_str trimmed)
          /\ outcome (extract_tags w query) = inr (spec_tags toks)
          /\ (Forall (fun t => forallb isspace t = true) toks ->
              outcome (extract_tags w query) = inr []))
  /\ (forall n : nat,
        exists content',
        forall w' query',
          chat_content w' (py "gpt-4o-mini") [user_msg (tags_prompt query')]
          = inr content' ->
          exists tags,
            outcome (extract_tags w' query') = inr tags
            /\ List.length tags = n).
Proof.
  intros Hc. split; [|split].
  - exists (split_comma content).
    split; [apply split_comma_not_nil|].
    split; [apply split_comma_free|apply join_split_comma].
  - intros toks Hne Hf Hj.
    assert (Ho : outcome (extract_tags w query) = inr (spec_tags toks)).
    { rewrite extract_tags_run, Hc. unfold outcome. simpl snd.
      now rewrite <- Hj, parse_tags_tokens. }
    exists (map strip toks).
    split; [apply Forall2_trimmed_strip|].
    split; [|split; [exact Ho|split; [exact Ho|]]].
    + intros other Hother.
      exact (Forall2_trimmed_unique Hother (Forall2_trimmed_strip toks)).
    + intros Hb. rewrite Ho. f_equal. apply spec_tags_all_blank.
      apply Forall_forall. intros t Ht. rewrite Forall_forall in Hb.
      apply strip_nil_iff. now apply Hb.
  - intros n. destruct (parse_tags_any_length n) as [content' Hl].
    exists content'. intros w' query' Hc'.
    exists (parse_tags content'). split; [|exact Hl].
    now rewrite extract_tags_run, Hc'.
Qed.

Lemma tags_are_trimmed_tokens_witness :
  let w := Stub.w_padded in
  let toks := [py " refund "; py " policy "; []; py " return " ++ [newline]] in
  chat_content w (py "gpt-4o-mini") [user_msg (tags_prompt (py "refund policy"))]
  = inr (py " refund , policy ,, return " ++ [newline])
  /\ Forall2 trimmed_from toks [py "refund"; py "policy"; []; py "return"]
  /\ outcome (extract_tags w (py "refund policy"))
     = inr [py "refund"; py "policy"; py "return"].
Proof.
  intros w toks.
  assert (Ht : Forall2 trimmed_from toks
                 [py "refund"; py "policy"; []; py "return"]).
  { repeat constructor.
    - exists (py " "), (py " "). repeat split.
    - exists (py " "), (py " "). repeat split.
    - exists [], []. repeat split.
    - exists (py " "), (py " " ++ [newline]). repeat split. }
  split; [reflexivity|]. split; [exact Ht|].
  destruct (tags_are_trimmed_tokens w (py "refund policy")
              (py " refund , policy ,, return " ++ [newline]) eq_refl)
    as (_ & H & _).
  destruct (H toks) as (trimmed & _ & Hu & Ho & _).
  - discriminate.
  - repeat constructor; intros Hin; vm_compute in Hin;
      repeat (destruct Hin as [Hin|Hin]; [discriminate Hin|]); exact Hin.
  - reflexivity.
  - rewrite Ho, <- (Hu _ Ht). reflexivity.
Defined.

(** C9 (as amended): the rewritten query the Normalizer returns is the
    string the model put under [rewritten_query] with the whitespace around
    it removed; it neither starts nor ends with whitespace, and it is
    empty exactly when the model's string is empty or all whitespace.
    That it is never empty is not a property of the code: see
    [blank_rewrite_is_returned]. *)
Theorem rewritten_query_is_trimmed (w : World) (q : pystr) (h : option pystr)
    (rw : pystr) (esc : bool) :
  outcome (rewrite_and_detect w q h) = inr (rw, esc) ->
  exists d raw,
    chat_function_args w (py "gpt-4o") (rewrite_msgs q h) = inr (JObject d)
    /\ dict_get d (py "rewritten_query") = Some (JString raw)
    /\ rw = strip raw
    /\ strip rw = rw
    /\ (rw = [] <-> forallb isspace raw = true)
    /\ trimmed_from raw rw
    /\ (forall other, trimmed_from raw other -> other = rw)
    /\ starts_with_space rw = false
    /\ ends_with_space rw = false.
Proof.
  intros H.
  destruct (rewrite_and_detect_returns w q h H)
    as (d & raw & v & Ha & Hq & _ & -> & _).
  pose proof (strip_trimmed_from raw) as Ht.
  exists d, raw.
  split; [exact Ha|]. split; [exact Hq|]. split; [reflexivity|].
  split; [apply strip_idem|]. split; [apply strip_nil_iff|].
  split; [exact Ht|]. split.
  - intros other Ho. exact (trimmed_from_unique Ho Ht).
  - destruct Ht as (p & q' & _ & _ & _ & Hs & He). now split.
Qed.

Lemma rewritten_query_is_trimmed_witness :
  let w := Stub.w_padded in
  outcome (rewrite_and_detect w (py "what about refunds?") None)
  = inr (py "refund policy", false)
  /\ trimmed_from (py "  refund policy " ++ [newline]) (py "refund policy").
Proof.
  intros w.
  assert (H : outcome (rewrite_and_detect w (py "what about refunds?") None)
              = inr (py "refund policy", false)) by reflexivity.
  split; [exact H|].
  destruct (rewritten_query_is_trimmed w _ _ _ _ H)
    as (d & raw & Ha & Hq & _ & _ & _ & Ht & _).
  injection Ha as <-. injection Hq as <-. exact Ht.
Defined.

(** C9 (as stated) fails when the model answers with blanks: the
    Normalizer returns the empty string as the rewritten query. *)
Lemma blank_rewrite_is_returned :
  outcome (rewrite_and_detect Stub.w_blank_rewrite
             (py "what about refunds?") None)
  = inr ([], false)
  /\ strip [] = [].
Proof. split; reflexivity. Qed.

Lemma retriever_arguments (w : World) (req : RagRequest)
    (c : option pystr) (tags : list pystr) (kk : Z) :
  In (EvNearText c tags kk) (trace (get_context w req)) ->
  c = VECTOR_CLASS w /\ kk = or_int (k req) (DEFAULT_K w).
Proof.
  rewrite get_context_trace. intros [H|H]; [absurd_event H|].
  destruct (outcome (rewrite_and_detect w (question req) (history req)))
    as [e|[rw [|]]]; [now destruct H| |].
  - pose proof (escalation_branch_trace w req) as Ht. cbv zeta in Ht.
    destruct (outcome (make_reason w _)) as [e|reason].
    + rewrite Ht in H. not_in_trace H I.
    + destruct Ht as (logged & Ht & Hlog). rewrite Ht in H.
      not_in_trace H Hlog.
  - pose proof (retrieval_branch_trace w req rw) as Ht. cbv zeta in Ht.
    destruct (outcome (extract_tags w rw)) as [e|tags'].
    + rewrite Ht in H. not_in_trace H I.
    + destruct Ht as (logged & Ht & Hlog). rewrite Ht in H.
      destruct H as [H|H]; [absurd_event H|].
      destruct H as [H|H]; [injection H as <- <- <-; auto|].
      not_in_trace H Hlog.
Qed.

(** C10: an optional field given a falsy value is treated as an absent one.
    The whole run, trace and outcome, is the same with [k = 0] as without
    [k], and the same with an empty [history], [caller_number] or
    [escalated_to] as without it; so [k = 0] gives the default count, an
    empty history shows the Normalizer the marker ["[none]"] and the
    Summarizer the question, and an empty caller number or target is
    recorded as ["unknown"]. *)
Theorem falsy_fields_are_absent (w : World) (req : RagRequest) :
  get_context w (with_k req (Some 0%Z)) = get_context w (with_k req None)
  /\ get_context w (with_history req (Some []))
     = get_context w (with_history req None)
  /\ get_context w (with_caller_number req (Some []))
     = get_context w (with_caller_number req None)
  /\ get_context w (with_escalated_to req (Some []))
     = get_context w (with_escalated_to req None)
  /\ (forall c tags kk,
        In (EvNearText c tags kk) (trace (get_context w (with_k req (Some 0%Z)))) ->
        kk = DEFAULT_K w)
  /\ In (normalizer_call (question req) None)
        (trace (get_context w (with_history req (Some []))))
  /\ rewrite_user_content (question req) (Some [])
     = py "History:" ++ [newline] ++ py "[none]" ++ [newline; newline]
       ++ py "Latest:" ++ [newline] ++ question req
  /\ (forall text,
        In (summarizer_call text)
           (trace (get_context w (with_history req (Some [])))) ->
        text = question req)
  /\ (forall caller to reason,
        In (EvInsert caller to reason)
           (trace (get_context w (with_caller_number req (Some [])))) ->
        caller = py "unknown")
  /\ (forall caller to reason,
        In (EvInsert caller to reason)
           (trace (get_context w (with_escalated_to req (Some [])))) ->
        to = py "unknown").
Proof.
  repeat match goal with |- _ /\ _ => split end; try reflexivity.
  - intros c tags kk H. apply (retriever_arguments w _ _ _ _) in H.
    exact (proj2 H).
  - rewrite get_context_trace. now left.
  - intros text H. apply summarizer_argument in H. exact H.
  - intros caller to reason H. apply recorder_arguments in H. apply H.
  - intros caller to reason H. apply recorder_arguments in H. apply H.
Qed.

Lemma falsy_fields_are_absent_witness :
  let w := Stub.w_escalate in
  let req := Stub.request "I want to speak to a human" in
  let reason := py "CONVERSATION: greeting. ESCALATION: asked for a human." in
  get_context w (with_caller_number req (Some []))
  = get_context w (with_caller_number req None)
  /\ In (EvInsert (py "unknown") (py "unknown") reason)
        (trace (get_context w (with_caller_number req (Some []))))
  /\ py "unknown" = py "unknown".
Proof.
  intros w req reason.
  destruct (falsy_fields_are_absent w req)
    as (_ & _ & Hrun & _ & _ & _ & _ & _ & Hcaller & _).
  assert (Hin : In (EvInsert (py "unknown") (py "unknown") reason)
                   (trace (get_context w (with_caller_number req (Some [])))))
    by (vm_compute; right; right; left; reflexivity).
  split; [exact Hrun|]. split; [exact Hin|].
  exact (Hcaller _ _ _ Hin).
Defined.

(** ** Further properties of the helpers *)

Section MoreStrings.

Lemma lstrip_incl (s : pystr) (c : N) : In c (lstrip s) -> In c s.
Proof.
  induction s as [|a s IH]; simpl; [tauto|].
  destruct (isspace a); [right; now apply IH|now intros H].
Qed.

Lemma strip_incl (s : pystr) (c : N) : In c (strip s) -> In c s.
Proof.
  unfold strip, rstrip. intros H.
  apply in_rev, lstrip_incl in H. apply in_rev in H.
  now apply lstrip_incl.
Qed.

Lemma strip_space_cons (c : N) (s : pystr) :
  isspace c = true -> strip (c :: s) = strip s.
Proof. intros H. unfold strip. simpl. now rewrite H. Qed.

Lemma split_comma_length (s : pystr) :
  List.length (split_comma s) = S (count_occ N.eq_dec s comma).
Proof.
  induction s as [|c s IH]; [reflexivity|].
  simpl split_comma. simpl count_occ.
  destruct (N.eq_dec c comma) as [->|Hne].
  - simpl. now rewrite IH.
  - apply N.eqb_neq in Hne. rewrite Hne.
    destruct (split_comma s) as [|t ts] eqn:Hs;
      [now destruct (split_comma_not_nil s)|].
    exact IH.
Qed.

(** [", ".join(l)] is [",".join] of [l] with a space before each element
    but the first. *)
Lemma join_comma_space (u : pystr) (l : list pystr) :
  (32 :: join [comma; 32] (u :: l))%N
  = join [comma] (map (cons 32%N) (u :: l)).
Proof.
  revert u. induction l as [|v l IH]; intros u; [reflexivity|].
  change (join [comma; 32%N] (u :: v :: l))
    with (u ++ comma :: (32 :: join [comma; 32] (v :: l))%N).
  rewrite IH. reflexivity.
Qed.

(** A tag as [parse_tags] makes them: not empty, trimmed, without comma. *)
Lemma parse_tags_clean (s t : pystr) :
  In t (parse_tags s) -> t <> [] /\ strip t = t /\ comma_free t.
Proof.
  unfold parse_tags. intros H.
  apply in_map_iff in H. destruct H as (u & <- & Hu).
  apply filter_In in Hu. destruct Hu as [Hin Hne].
  split; [|split].
  - intros E. rewrite E in Hne. discriminate Hne.
  - apply strip_idem.
  - intros Hc. apply strip_incl in Hc.
    pose proof (split_comma_free s) as Hf. rewrite Forall_forall in Hf.
    exact (Hf u Hin Hc).
Qed.

Lemma spec_tags_clean (tags : list pystr) :
  Forall (fun t => t <> [] /\ strip t = t) tags ->
  spec_tags tags = tags.
Proof.
  unfold spec_tags.
  induction 1 as [|t ts [Hne Hs] _ IH]; [reflexivity|].
  simpl. rewrite Hs. destruct t as [|c t]; [now destruct Hne|].
  simpl. now rewrite IH.
Qed.

Lemma parse_tags_comma_space (tags : list pystr) :
  Forall (fun t => t <> [] /\ strip t = t /\ comma_free t) tags ->
  parse_tags (join (py ", ") tags) = tags.
Proof.
  intros Hc. change (py ", ") with [comma; 32%N].
  destruct tags as [|t ts]; [reflexivity|].
  inversion Hc as [|? ? (Hne & Hs & Hf) Hts]; subst.
  assert (Hj : join [comma; 32%N] (t :: ts)
               = join [comma] (t :: map (cons 32%N) ts)).
  { destruct ts as [|u us]; [reflexivity|].
    change (join [comma; 32%N] (t :: u :: us))
      with (t ++ comma :: (32 :: join [comma; 32] (u :: us))%N).
    now rewrite join_comma_space. }
  rewrite Hj, parse_tags_tokens.
  - unfold spec_tags. simpl map. rewrite map_map.
    rewrite (map_ext (fun x => strip (32%N :: x)) strip)
      by (intros x; now apply strip_space_cons).
    change (filter truthy_str (strip t :: map strip ts))
      with (spec_tags (t :: ts)).
    apply spec_tags_clean.
    apply Forall_forall. intros x Hx. rewrite Forall_forall in Hc.
    destruct (Hc x Hx) as (H1 & H2 & _). now split.
  - discriminate.
  - constructor; [exact Hf|].
    apply Forall_forall. intros x Hx. apply in_map_iff in Hx.
    destruct Hx as (y & <- & Hy). rewrite Forall_forall in Hts.
    destruct (Hts y Hy) as (_ & _ & Hfy).
    intros [H|H]; [discriminate H|now apply Hfy].
Qed.

End MoreStrings.

(** X1: every tag [extract_tags] returns is non-empty, neither starts nor
    ends with whitespace and holds no comma; and there are at most one
    more tags than there are commas in the model's answer. *)
Theorem tags_are_clean_and_bounded (w : World) (query content : pystr)
    (tags : list pystr) :
  chat_content w (py "gpt-4o-mini") [user_msg (tags_prompt query)]
  = inr content ->
  outcome (extract_tags w query) = inr tags ->
  Forall (fun t => t <> []
                   /\ starts_with_space t = false
                   /\ ends_with_space t = false
                   /\ comma_free t) tags
  /\ (List.length tags <= S (count_occ N.eq_dec content comma))%nat.
Proof.
  intros Hc. rewrite extract_tags_run, Hc. unfold outcome. simpl snd.
  intros E. injection E as <-. split.
  - apply Forall_forall. intros t Ht.
    destruct (parse_tags_clean _ _ Ht) as (Hne & Hs & Hf).
    destruct (strip_trimmed_from t) as (p & q & _ & _ & _ & H1 & H2).
    rewrite Hs in H1, H2. auto.
  - unfold parse_tags. rewrite length_map, <- split_comma_length.
    apply filter_length_le.
Qed.

Lemma tags_are_clean_and_bounded_witness :
  let w := Stub.w_padded in
  let tags := [py "refund"; py "policy"; py "return"] in
  outcome (extract_tags w (py "refund policy")) = inr tags
  /\ Forall (fun t => starts_with_space t = false
                      /\ ends_with_space t = false) tags
  /\ (List.length tags
      <= S (count_occ N.eq_dec
              (py " refund , policy ,, return " ++ [newline]) comma))%nat.
Proof.
  intros w tags.
  assert (H : outcome (extract_tags w (py "refund policy")) = inr tags)
    by reflexivity.
  destruct (tags_are_clean_and_bounded w (py "refund policy")
              (py " refund , policy ,, return " ++ [newline]) _ eq_refl H)
    as [Hc Hl].
  split; [exact H|]. split; [|exact Hl].
  apply Forall_forall. intros t Ht. rewrite Forall_forall in Hc.
  destruct (Hc t Ht) as (_ & H1 & H2 & _). now split.
Defined.

(** X2: tags survive being written out and read back: joining the tags
    [extract_tags] parsed with [", "] and parsing that string again gives
    the same tags. *)
Theorem tags_round_trip (content : pystr) :
  parse_tags (join (py ", ") (parse_tags content)) = parse_tags content.
Proof.
  apply parse_tags_comma_space.
  apply Forall_forall. intros t. apply parse_tags_clean.
Qed.

(** X3: [make_reason] returns the model's summary with the whitespace
    around it removed and nothing else changed: the one string that
    [trimmed_from] names for the model's content. *)
Theorem make_reason_trims_only (w : World) (text content : pystr) :
  chat_content w (py "gpt-4o-mini")
    [system_msg reason_system_prompt; user_msg text] = inr content ->
  exists reason,
    make_reason w text = ([summarizer_call text], inr reason)
    /\ trimmed_from content reason
    /\ (forall other, trimmed_from content other -> other = reason).
Proof.
  intros Hc. exists (strip content).
  pose proof (strip_trimmed_from content) as Ht.
  split; [now rewrite make_reason_run, Hc|]. split; [exact Ht|].
  intros other Ho. exact (trimmed_from_unique Ho Ht).
Qed.

Lemma make_reason_trims_only_witness :
  let content := py " refund , policy ,, return " ++ [newline] in
  let reason := py "refund , policy ,, return" in
  trimmed_from content reason
  /\ make_reason Stub.w_padded (py "I want to speak to a human")
     = ([summarizer_call (py "I want to speak to a human")], inr reason).
Proof.
  intros content reason.
  assert (Ht : trimmed_from content reason).
  { exists (py " "), (py " " ++ [newline]). repeat split. }
  split; [exact Ht|].
  destruct (make_reason_trims_only Stub.w_padded
              (py "I want to speak to a human") content eq_refl)
    as (r & Hr & _ & Hu).
  rewrite Hr, <- (Hu _ Ht). reflexivity.
Defined.

Lemma mapM_text_of_missing (objs : list wobject) (o : wobject) :
  In o objs ->
  dict_get (properties o) (py "text") = None ->
  outcome (mapM text_of objs) = inl (KeyError (py "text")).
Proof.
  induction objs as [|a objs IH]; intros Hin Ho; [now destruct Hin|].
  simpl mapM. rewrite bind_run. unfold text_of at 1 2.
  destruct (dict_get (properties a) (py "text")) as [t|] eqn:Ha;
    [|reflexivity].
  destruct Hin as [->|Hin]; [rewrite Ho in Ha; discriminate Ha|].
  simpl. rewrite bind_run, (IH Hin Ho). reflexivity.
Qed.



(** X5: one object without a [text] property empties the whole result: the
    [KeyError] is caught with the rest, the texts of the other objects are
    dropped, and [retrieve] returns the empty list. *)
Theorem object_without_text_empties_result (w : World) (tags : list pystr)
    (k : Z) (objs : list wobject) (o : wobject) :
  near_text w (VECTOR_CLASS w) tags k = inr objs ->
  In o objs ->
  dict_get (properties o) (py "text") = None ->
  retrieve w tags k
  = ([EvNearText (VECTOR_CLASS w) tags k;
      EvLogError (py "Weaviate query error: %s") (KeyError (py "text"))],
     inr []).
Proof.
  intros Hs Hin Ho.
  now rewrite retrieve_run, Hs, (mapM_text_of_missing _ _ Hin Ho).
Qed.

Lemma object_without_text_empties_result_witness :
  let objs := [Stub.chunk "Chunk A"; {| properties := [(py "title", py "B")] |}] in
  let w := Stub.world (inr JNull) (inr []) (inr objs) None in
  outcome (retrieve w [py "refund"] 4) = inr [].
Proof.
  intros objs w.
  rewrite (object_without_text_empties_result w [py "refund"] 4 objs
             {| properties := [(py "title", py "B")] |} eq_refl).
  - reflexivity.
  - right. now left.
  - reflexivity.
Defined.

(** X6: [write_escalation] tries the insert once.  It raises exactly when
    the insert raised an exception that is not a [mysql.connector.Error],
    and then with that exception; it writes to the log exactly when the
    insert raised a [mysql.connector.Error]. *)
Theorem write_escalation_raises_iff (w : World) (caller to reason : pystr)
    (e : exn) :
  let run := write_escalation w caller to reason in
  (outcome run = inl e <->
   insert_row w caller to reason = Some e /\ is_mysql_error e = false)
  /\ (In (EvLogError (py "DB insert failed: %s") e) (trace run) <->
      insert_row w caller to reason = Some e /\ is_mysql_error e = true)
  /\ (exists logged,
        trace run = EvInsert caller to reason :: logged
        /\ forall c t r, ~ In (EvInsert c t r) logged).
Proof.
  intros run. subst run. rewrite write_escalation_run.
  destruct (insert_row w caller to reason) as [e'|].
  - destruct (is_mysql_error e') eqn:Hm; (split; [|split]).
    + split; [discriminate|]. intros [H H']. injection H as ->.
      rewrite Hm in H'. discriminate H'.
    + split.
      * intros [H|[H|[]]]; [discriminate H|]. injection H as <-. now split.
      * intros [H _]. injection H as ->. right. now left.
    + eexists. split; [reflexivity|]. intros c t r [H|[]]. discriminate H.
    + split.
      * intros H. injection H as ->. now split.
      * intros [H _]. now injection H as ->.
    + split.
      * intros [H|[]]. discriminate H.
      * intros [H H']. injection H as ->. rewrite Hm in H'. discriminate H'.
    + exists []. split; [reflexivity|]. intros c t r [].
  - split; [|split].
    + split; [discriminate|]. intros [H _]. discriminate H.
    + split.
      * intros [H|[]]. discriminate H.
      * intros [H _]. discriminate H.
    + exists []. split; [reflexivity|]. intros c t r [].
Qed.

Lemma write_escalation_raises_iff_witness :
  outcome (write_escalation Stub.w_db_type_error (py "unknown") (py "unknown")
             (py "reason")) = inl TypeError.
Proof.
  apply (write_escalation_raises_iff Stub.w_db_type_error
           (py "unknown") (py "unknown") (py "reason") TypeError).
  split; reflexivity.
Defined.



(** ** Further properties of the endpoint *)

Lemma tags_prompt_inj (q q' : pystr) : tags_prompt q = tags_prompt q' -> q = q'.
Proof.
  unfold tags_prompt. intros H.
  apply app_inv_head in H. now apply app_inv_head in H.
Qed.

(** X8: once the Normalizer has returned, the rest of the turn is one pass
    with no retry.  After the Normalizer's call the trace holds, for an
    escalation, the Summarizer's call and then at most one attempt to
    insert; without escalation, the Tag Extractor's call and then at most
    one search; an insert or a search is followed by at most one record in
    the log. *)
Theorem turn_trace_shapes (w : World) (req : RagRequest) (rw : pystr)
    (esc : bool) :
  outcome (rewrite_and_detect w (question req) (history req))
  = inr (rw, esc) ->
  let nc := normalizer_call (question req) (history req) in
  let sc := summarizer_call (or_str (history req) (question req)) in
  let tc := tag_extractor_call rw in
  let caller := or_str (caller_number req) (py "unknown") in
  let to := or_str (escalated_to req) (py "unknown") in
  let kk := or_int (k req) (DEFAULT_K w) in
  let tr := trace (get_context w req) in
  if esc then
    tr = [nc; sc]
    \/ (exists reason, tr = [nc; sc; EvInsert caller to reason])
    \/ (exists reason msg,
          tr = [nc; sc; EvInsert caller to reason;
                EvLogError (py "DB insert failed: %s") (MySQLError msg)])
  else
    tr = [nc; tc]
    \/ (exists tags, tr = [nc; tc; EvNearText (VECTOR_CLASS w) tags kk])
    \/ (exists tags e,
          tr = [nc; tc; EvNearText (VECTOR_CLASS w) tags kk;
                EvLogError (py "Weaviate query error: %s") e]).
Proof.
  intros Hn nc sc tc caller to kk tr. subst tr.
  rewrite get_context_trace, Hn. fold nc. destruct esc.
  - pose proof (escalation_branch_run w req) as H. cbv zeta in H.
    fold caller to in H. rewrite H; clear H.
    destruct (outcome (make_reason w _)) as [e|reason]; [now left|].
    rewrite write_escalation_run.
    destruct (insert_row w caller to reason) as [e|].
    + destruct e as [key| | |msg|name]; simpl is_mysql_error; cbv iota;
        try (right; left; now exists reason).
      right; right. now exists reason, msg.
    + right; left. now exists reason.
  - pose proof (retrieval_branch_run w req rw) as H. cbv zeta in H.
    fold kk in H. rewrite H; clear H.
    destruct (outcome (extract_tags w rw)) as [e|tags]; [now left|].
    right. rewrite retrieve_run.
    destruct (near_text w (VECTOR_CLASS w) tags kk) as [e|objs].
    + right. now exists tags, e.
    + destruct (outcome (mapM text_of objs)) as [e|chunks].
      * right. now exists tags, e.
      * left. now exists tags.
Qed.

Lemma turn_trace_shapes_witness :
  let w := Stub.w_db_down in
  let req := Stub.request "I want to speak to a human" in
  let nc := normalizer_call (question req) (history req) in
  let sc := summarizer_call (question req) in
  let tr := trace (get_context w req) in
  tr = [nc; sc]
  \/ (exists reason, tr = [nc; sc; EvInsert (py "unknown") (py "unknown") reason])
  \/ (exists reason msg,
        tr = [nc; sc; EvInsert (py "unknown") (py "unknown") reason;
              EvLogError (py "DB insert failed: %s") (MySQLError msg)]).
Proof.
  intros w req nc sc tr.
  exact (turn_trace_shapes w req (py "request human agent") true eq_refl).
Defined.

(** X9: an exception of a helper leaves the turn as it is, neither wrapped
    nor replaced.  [get_context] raises [e] when the Normalizer raised
    [e]; when the turn escalates and the Summarizer raised [e], or the
    insert raised [e] and [e] is not a [mysql.connector.Error]; and when
    the turn does not escalate and the Tag Extractor raised [e]. *)
Theorem helper_exception_fails_turn (w : World) (req : RagRequest) (e : exn) :
  let norm := outcome (rewrite_and_detect w (question req) (history req)) in
  let text := or_str (history req) (question req) in
  let caller := or_str (caller_number req) (py "unknown") in
  let to := or_str (escalated_to req) (py "unknown") in
  norm = inl e
  \/ (exists rw,
        norm = inr (rw, true)
        /\ (outcome (make_reason w text) = inl e
            \/ exists reason,
                 outcome (make_reason w text) = inr reason
                 /\ insert_row w caller to reason = Some e
                 /\ is_mysql_error e = false))
  \/ (exists rw,
        norm = inr (rw, false) /\ outcome (extract_tags w rw) = inl e) ->
  outcome (get_context w req) = inl e.
Proof.
  intros norm text caller to. subst norm. rewrite get_context_outcome.
  intros [H|[(rw & H & [Hr|(reason & Hr & Hi & Hm)])|(rw & H & Ht)]];
    rewrite H.
  - reflexivity.
  - rewrite escalation_branch_outcome. fold text. now rewrite Hr.
  - rewrite escalation_branch_outcome. fold text caller to. rewrite Hr.
    now rewrite write_escalation_run, Hi, Hm.
  - rewrite retrieval_branch_outcome. now rewrite Ht.
Qed.

Lemma helper_exception_fails_turn_witness :
  outcome (get_context Stub.w_keywords_down (Stub.request "what about refunds?"))
  = inl (OtherException (py "APIConnectionError")).
Proof.
  apply (helper_exception_fails_turn Stub.w_keywords_down
           (Stub.request "what about refunds?")
           (OtherException (py "APIConnectionError"))).
  right. right. exists (py "refund policy"). split; reflexivity.
Defined.

(** X10: the flag of the response is the truth value of what the model put
    under [is_escalation], and it decides the context: [true] comes with
    the empty context, [false] with the joined chunks of [retrieve]. *)
Theorem response_follows_model_flag (w : World) (req : RagRequest)
    (r : RagResponse) :
  outcome (get_context w req) = inr r ->
  exists d s v,
    chat_function_args w (py "gpt-4o")
      (rewrite_msgs (question req) (history req)) = inr (JObject d)
    /\ dict_get d (py "rewritten_query") = Some (JString s)
    /\ dict_get d (py "is_escalation") = Some v
    /\ is_escalation r = truthy v
    /\ (truthy v = true -> context r = [])
    /\ (truthy v = false ->
        exists tags chunks,
          outcome (extract_tags w (strip s)) = inr tags
          /\ outcome (retrieve w tags (or_int (k req) (DEFAULT_K w)))
             = inr chunks
          /\ context r = join_chunks chunks).
Proof.
  rewrite get_context_outcome.
  destruct (outcome (rewrite_and_detect w (question req) (history req)))
    as [e|[rw esc]] eqn:Hn; [discriminate|].
  destruct (rewrite_and_detect_returns w _ _ Hn)
    as (d & s & v & Ha & Hq & He & -> & ->).
  intros Hr. exists d, s, v.
  split; [exact Ha|]. split; [exact Hq|]. split; [exact He|].
  split; [|split].
  - destruct (truthy v).
    + rewrite escalation_branch_outcome in Hr.
      destruct (outcome (make_reason w _)); [discriminate|].
      destruct (outcome (write_escalation w _ _ _)); [discriminate|].
      now injection Hr as <-.
    + rewrite retrieval_branch_outcome in Hr.
      destruct (outcome (extract_tags w _)); [discriminate|].
      destruct (outcome (retrieve w _ _)); [discriminate|].
      now injection Hr as <-.
  - intros Ht. rewrite Ht in Hr. rewrite escalation_branch_outcome in Hr.
    destruct (outcome (make_reason w _)); [discriminate|].
    destruct (outcome (write_escalation w _ _ _)); [discriminate|].
    now injection Hr as <-.
  - intros Ht. rewrite Ht in Hr. rewrite retrieval_branch_outcome in Hr.
    destruct (outcome (extract_tags w (strip s))) as [e|tags]; [discriminate|].
    destruct (outcome (retrieve w tags _)) as [e|chunks] eqn:Hc; [discriminate|].
    exists tags, chunks. injection Hr as <-. auto.
Qed.

Lemma response_follows_model_flag_witness :
  exists d s v,
    dict_get d (py "is_escalation") = Some v
    /\ dict_get d (py "rewritten_query") = Some (JString s)
    /\ false = truthy v.
Proof.
  destruct (response_follows_model_flag Stub.w_chunks
              (Stub.request "what about refunds?")
              {| context :=
                   py "Chunk A" ++ [newline] ++ py "---" ++ [newline]
                   ++ py "Chunk B";
                 is_escalation := false |} eq_refl)
    as (d & s & v & _ & Hq & He & Hf & _).
  exists d, s, v. auto.
Defined.

(** X11: [write_escalation] is called, and so the insert attempted,
    exactly in an escalation turn whose Summarizer returned; the row it is
    given is made of the request's caller number and target (["unknown"]
    for a missing or empty one) and of the summary [make_reason] returned.
    Whether the row reaches the table is the insert's affair. *)
Theorem insert_attempted_iff (w : World) (req : RagRequest)
    (caller to reason : pystr) :
  In (EvInsert caller to reason) (trace (get_context w req)) <->
  caller = or_str (caller_number req) (py "unknown")
  /\ to = or_str (escalated_to req) (py "unknown")
  /\ (exists rw,
        outcome (rewrite_and_detect w (question req) (history req))
        = inr (rw, true))
  /\ outcome (make_reason w (or_str (history req) (question req)))
     = inr reason.
Proof.
  rewrite get_context_trace. split.
  - intros [H|H]; [absurd_event H|].
    destruct (outcome (rewrite_and_detect w (question req) (history req)))
      as [e|[rw [|]]]; [now destruct H| |].
    + pose proof (escalation_branch_trace w req) as Ht. cbv zeta in Ht.
      destruct (outcome (make_reason w _)) as [e|reason'].
      * rewrite Ht in H. not_in_trace H I.
      * destruct Ht as (logged & Ht & Hlog). rewrite Ht in H.
        destruct H as [H|H]; [absurd_event H|].
        destruct H as [H|H]; [injection H as <- <- <-; eauto 6|].
        not_in_trace H Hlog.
    + pose proof (retrieval_branch_trace w req rw) as Ht. cbv zeta in Ht.
      destruct (outcome (extract_tags w rw)) as [e|tags].
      * rewrite Ht in H. not_in_trace H I.
      * destruct Ht as (logged & Ht & Hlog). rewrite Ht in H.
        not_in_trace H Hlog.
  - intros (-> & -> & (rw & Hn) & Hr). rewrite Hn.
    pose proof (escalation_branch_trace w req) as Ht. cbv zeta in Ht.
    rewrite Hr in Ht. destruct Ht as (logged & -> & _).
    right. right. now left.
Qed.

(** X12: the index is searched exactly in a turn without escalation whose
    Tag Extractor returned, and the search is made on the configured
    collection, with the tags extracted from the rewritten query and with
    the limit [k or DEFAULT_K]. *)
Theorem search_happens_iff (w : World) (req : RagRequest)
    (c : option pystr) (tags : list pystr) (kk : Z) :
  In (EvNearText c tags kk) (trace (get_context w req)) <->
  c = VECTOR_CLASS w
  /\ kk = or_int (k req) (DEFAULT_K w)
  /\ exists rw,
       outcome (rewrite_and_detect w (question req) (history req))
       = inr (rw, false)
       /\ outcome (extract_tags w rw) = inr tags.
Proof.
  rewrite get_context_trace. split.
  - intros [H|H]; [absurd_event H|].
    destruct (outcome (rewrite_and_detect w (question req) (history req)))
      as [e|[rw [|]]]; [now destruct H| |].
    + pose proof (escalation_branch_trace w req) as Ht. cbv zeta in Ht.
      destruct (outcome (make_reason w _)) as [e|reason].
      * rewrite Ht in H. not_in_trace H I.
      * destruct Ht as (logged & Ht & Hlog). rewrite Ht in H.
        not_in_trace H Hlog.
    + pose proof (retrieval_branch_trace w req rw) as Ht. cbv zeta in Ht.
      destruct (outcome (extract_tags w rw)) as [e|tags'] eqn:He.
      * rewrite Ht in H. not_in_trace H I.
      * destruct Ht as (logged & Ht & Hlog). rewrite Ht in H.
        destruct H as [H|H]; [absurd_event H|].
        destruct H as [H|H]; [injection H as <- <- <-; eauto 6|].
        not_in_trace H Hlog.
  - intros (-> & -> & rw & Hn & He). rewrite Hn.
    pose proof (retrieval_branch_trace w req rw) as Ht. cbv zeta in Ht.
    rewrite He in Ht. destruct Ht as (logged & -> & _).
    right. right. now left.
Qed.

(** X13: which LLM helper is called, and on what.  The Summarizer is called
    exactly when the Normalizer reported an escalation, on
    [history or question]; the Tag Extractor is called exactly when the
    Normalizer reported none, on the rewritten query the Normalizer
    returned, never on the raw question as such. *)
Theorem llm_helper_calls_iff (w : World) (req : RagRequest) (text : pystr) :
  (In (summarizer_call text) (trace (get_context w req)) <->
   text = or_str (history req) (question req)
   /\ exists rw,
        outcome (rewrite_and_detect w (question req) (history req))
        = inr (rw, true))
  /\ (In (tag_extractor_call text) (trace (get_context w req)) <->
      outcome (rewrite_and_detect w (question req) (history req))
      = inr (text, false)).
Proof.
  rewrite get_context_trace. split; split.
  - intros [H|H]; [absurd_event H|].
    destruct (outcome (rewrite_and_detect w (question req) (history req)))
      as [e|[rw [|]]]; [now destruct H| |].
    + pose proof (escalation_branch_trace w req) as Ht. cbv zeta in Ht.
      destruct (outcome (make_reason w _)) as [e|reason].
      * rewrite Ht in H. destruct H as [H|[]].
        unfold summarizer_call in H. injection H as <-. eauto.
      * destruct Ht as (logged & Ht & Hlog). rewrite Ht in H.
        destruct H as [H|H];
          [unfold summarizer_call in H; injection H as <-; eauto|].
        not_in_trace H Hlog.
    + pose proof (retrieval_branch_trace w req rw) as Ht. cbv zeta in Ht.
      destruct (outcome (extract_tags w rw)) as [e|tags].
      * rewrite Ht in H. not_in_trace H I.
      * destruct Ht as (logged & Ht & Hlog). rewrite Ht in H.
        not_in_trace H Hlog.
  - intros (-> & rw & Hn). rewrite Hn.
    pose proof (escalation_branch_trace w req) as Ht. cbv zeta in Ht.
    destruct (outcome (make_reason w _)) as [e|reason].
    + rewrite Ht. right. now left.
    + destruct Ht as (logged & -> & _). right. now left.
  - intros [H|H]; [absurd_event H|].
    destruct (outcome (rewrite_and_detect w (question req) (history req)))
      as [e|[rw [|]]]; [now destruct H| |].
    + pose proof (escalation_branch_trace w req) as Ht. cbv zeta in Ht.
      destruct (outcome (make_reason w _)) as [e|reason].
      * rewrite Ht in H. not_in_trace H I.
      * destruct Ht as (logged & Ht & Hlog). rewrite Ht in H.
        not_in_trace H Hlog.
    + assert (Hq : forall q', tag_extractor_call rw = tag_extractor_call q' ->
                              rw = q').
      { intros q' E.
        apply (f_equal (fun ev => match ev with
                                  | EvChat _ [m] _ => content_of m
                                  | _ => []
                                  end)) in E.
        change (tags_prompt rw = tags_prompt q') in E.
        now apply tags_prompt_inj. }
      pose proof (retrieval_branch_trace w req rw) as Ht. cbv zeta in Ht.
      destruct (outcome (extract_tags w rw)) as [e|tags].
      * rewrite Ht in H. destruct H as [H|[]]. now rewrite (Hq _ H).
      * destruct Ht as (logged & Ht & Hlog). rewrite Ht in H.
        destruct H as [H|H]; [now rewrite (Hq _ H)|].
        not_in_trace H Hlog.
  - intros Hn. rewrite Hn.
    pose proof (retrieval_branch_trace w req text) as Ht. cbv zeta in Ht.
    destruct (outcome (extract_tags w text)) as [e|tags].
    + rewrite Ht. right. now left.
    + destruct Ht as (logged & -> & _). right. now left.
Qed.

(** X14: the limit is not validated: any [k] other than zero, a negative one
    too, reaches the search as it is. *)
Theorem nonzero_k_reaches_search (w : World) (req : RagRequest) (z : Z)
    (c : option pystr) (tags : list pystr) (kk : Z) :
  z <> 0%Z ->
  In (EvNearText c tags kk) (trace (get_context w (with_k req (Some z)))) ->
  kk = z.
Proof.
  intros Hz H. apply retriever_arguments in H. destruct H as [_ ->].
  simpl. apply Z.eqb_neq in Hz. now rewrite Hz.
Qed.

Lemma nonzero_k_reaches_search_witness :
  let req := with_k (Stub.request "what about refunds?") (Some (-1)%Z) in
  In (EvNearText (Some (py "Docs")) [py "refund"; py "policy"; py "return"] (-1))
     (trace (get_context Stub.w_chunks req))
  /\ (-1 = -1)%Z.
Proof.
  intros req.
  assert (H : In (EvNearText (Some (py "Docs"))
                    [py "refund"; py "policy"; py "return"] (-1))
                 (trace (get_context Stub.w_chunks req)))
    by (vm_compute; right; right; left; reflexivity).
  split; [exact H|].
  refine (nonzero_k_reaches_search Stub.w_chunks
            (Stub.request "what about refunds?") (-1) _ _ (-1) _ H).
  discriminate.
Defined.

Lemma insert_attempted_iff_witness :
  let req := Stub.request "I want to speak to a human" in
  In (EvInsert (py "unknown") (py "unknown")
        (py "CONVERSATION: greeting. ESCALATION: asked for a human."))
     (trace (get_context Stub.w_escalate req)).
Proof.
  intros req.
  apply (insert_attempted_iff Stub.w_escalate req).
  split; [reflexivity|]. split; [reflexivity|].
  split; [now exists (py "request human agent")|reflexivity].
Defined.

Lemma search_happens_iff_witness :
  let req := Stub.request "what about refunds?" in
  In (EvNearText (Some (py "Docs")) [py "refund"; py "policy"; py "return"] 4)
     (trace (get_context Stub.w_chunks req)).
Proof.
  intros req.
  apply (search_happens_iff Stub.w_chunks req).
  split; [reflexivity|]. split; [reflexivity|].
  exists (py "refund policy"). split; reflexivity.
Defined.

Lemma llm_helper_calls_iff_witness :
  let req := Stub.request "what about refunds?" in
  In (tag_extractor_call (py "refund policy"))
     (trace (get_context Stub.w_chunks req)).
Proof.
  intros req.
  apply (llm_helper_calls_iff Stub.w_chunks req (py "refund policy")).
  reflexivity.
Defined.

(** X15: an escalation turn does not depend on the vector index or on [k]:
    with the same LLM answers and the same table, another index, another
    collection name, another default and another [k] give the same run. *)
Theorem escalation_ignores_index_and_k (w w' : World) (req : RagRequest)
    (kv : option Z) (rw : pystr) :
  chat_function_args w' = chat_function_args w ->
  chat_content w' = chat_content w ->
  insert_row w' = insert_row w ->
  outcome (rewrite_and_detect w (question req) (history req))
  = inr (rw, true) ->
  get_context w' (with_k req kv) = get_context w req.
Proof.
  intros Hf Hc Hi Hn.
  assert (Hn' : rewrite_and_detect w' (question req) (history req)
                = rewrite_and_detect w (question req) (history req))
    by now rewrite !rewrite_and_detect_run, Hf.
  rewrite !get_context_run.
  change (question (with_k req kv)) with (question req).
  change (history (with_k req kv)) with (history req).
  rewrite Hn', Hn.
  pose proof (escalation_branch_run w req) as H. cbv zeta in H.
  pose proof (escalation_branch_run w' (with_k req kv)) as H'. cbv zeta in H'.
  change (history (with_k req kv)) with (history req) in H'.
  change (question (with_k req kv)) with (question req) in H'.
  change (caller_number (with_k req kv)) with (caller_number req) in H'.
  change (escalated_to (with_k req kv)) with (escalated_to req) in H'.
  assert (Hmr : forall text, make_reason w' text = make_reason w text)
    by (intros text; now rewrite !make_reason_run, Hc).
  assert (Hwe : forall c t r,
             write_escalation w' c t r = write_escalation w c t r)
    by (intros c t r; now rewrite !write_escalation_run, Hi).
  rewrite H, H', Hmr.
  destruct (outcome (make_reason w _)) as [e|reason]; [reflexivity|].
  now rewrite Hwe.
Qed.

Lemma escalation_ignores_index_and_k_witness :
  let w := Stub.w_escalate in
  let w' := {| VECTOR_CLASS := None; DEFAULT_K := 9;
               chat_function_args := chat_function_args w;
               chat_content := chat_content w;
               near_text := fun _ _ _ => inl TypeError;
               insert_row := insert_row w |} in
  let req := Stub.request "I want to speak to a human" in
  get_context w' (with_k req (Some 7%Z)) = get_context w req.
Proof.
  intros w w' req.
  apply (escalation_ignores_index_and_k w w' req (Some 7%Z)
           (py "request human agent")); reflexivity.
Defined.

(** X16: a turn without escalation does not depend on the escalation
    target or on the table: with the same LLM answers and the same index,
    another [escalated_to] and another database give the same run. *)
Theorem retrieval_ignores_target_and_table (w w' : World) (req : RagRequest)
    (t : option pystr) (rw : pystr) :
  chat_function_args w' = chat_function_args w ->
  chat_content w' = chat_content w ->
  near_text w' = near_text w ->
  VECTOR_CLASS w' = VECTOR_CLASS w ->
  DEFAULT_K w' = DEFAULT_K w ->
  outcome (rewrite_and_detect w (question req) (history req))
  = inr (rw, false) ->
  get_context w' (with_escalated_to req t) = get_context w req.
Proof.
  intros Hf Hc Hs Hv Hk Hn.
  set (req' := with_escalated_to req t).
  assert (Hn' : rewrite_and_detect w' (question req) (history req)
                = rewrite_and_detect w (question req) (history req))
    by now rewrite !rewrite_and_detect_run, Hf.
  rewrite !get_context_run.
  change (question req') with (question req).
  change (history req') with (history req).
  rewrite Hn', Hn.
  pose proof (retrieval_branch_run w req rw) as H. cbv zeta in H.
  pose proof (retrieval_branch_run w' req' rw) as H'. cbv zeta in H'.
  change (k req') with (k req) in H'.
  assert (Het : forall q, extract_tags w' q = extract_tags w q)
    by (intros q; now rewrite !extract_tags_run, Hc).
  assert (Hre : forall tags kk, retrieve w' tags kk = retrieve w tags kk)
    by (intros tags kk; now rewrite !retrieve_run, Hs, Hv).
  rewrite H, H', Het, Hk.
  destruct (outcome (extract_tags w rw)) as [e|tags]; [reflexivity|].
  now rewrite Hre.
Qed.

Lemma retrieval_ignores_target_and_table_witness :
  let w := Stub.w_chunks in
  let w' := {| VECTOR_CLASS := VECTOR_CLASS w; DEFAULT_K := DEFAULT_K w;
               chat_function_args := chat_function_args w;
               chat_content := chat_content w;
               near_text := near_text w;
               insert_row := fun _ _ _ => Some TypeError |} in
  let req := Stub.request "what about refunds?" in
  get_context w' (with_escalated_to req (Some (py "+18005559876")))
  = get_context w req.
Proof.
  intros w w' req.
  apply (retrieval_ignores_target_and_table w w' req _ (py "refund policy"));
    reflexivity.
Defined.

Lemma join_chunks_nil_iff (chunks : list pystr) :
  join_chunks chunks = [] <-> chunks = [] \/ chunks = [[]].
Proof.
  destruct chunks as [|a [|b l]].
  - split; [now left|reflexivity].
  - change (a = [] <-> [a] = [] \/ [a] = [[]]). split.
    + intros H. right. now rewrite H.
    + intros [H|H]; [discriminate H|now injection H].
  - split.
    + intros H.
      change (a ++ delimiter ++ join delimiter (b :: l) = []) in H.
      apply app_eq_nil in H. destruct H as [_ H]. discriminate H.
    + intros [H|H]; discriminate H.
Qed.

(** X17: the two ways to an empty context without escalation.  A response
    with [is_escalation = false] has the empty context exactly when
    [retrieve] returned no chunk, or one chunk that is the empty string. *)
Theorem empty_context_iff_no_text (w : World) (req : RagRequest)
    (r : RagResponse) :
  outcome (get_context w req) = inr r ->
  is_escalation r = false ->
  exists rw tags chunks,
    outcome (rewrite_and_detect w (question req) (history req))
    = inr (rw, false)
    /\ outcome (extract_tags w rw) = inr tags
    /\ outcome (retrieve w tags (or_int (k req) (DEFAULT_K w))) = inr chunks
    /\ (context r = [] <-> chunks = [] \/ chunks = [[]]).
Proof.
  rewrite get_context_outcome.
  destruct (outcome (rewrite_and_detect w (question req) (history req)))
    as [e|[rw [|]]] eqn:Hn; [discriminate| |].
  - rewrite escalation_branch_outcome.
    destruct (outcome (make_reason w _)); [discriminate|].
    destruct (outcome (write_escalation w _ _ _)); [discriminate|].
    intros E. injection E as <-. discriminate.
  - rewrite retrieval_branch_outcome.
    destruct (outcome (extract_tags w rw)) as [e|tags] eqn:Ht; [discriminate|].
    destruct (outcome (retrieve w tags _)) as [e|chunks] eqn:Hc;
      [discriminate|].
    intros E _. injection E as <-.
    exists rw, tags, chunks.
    split; [reflexivity|]. split; [exact Ht|]. split; [exact Hc|].
    apply join_chunks_nil_iff.
Qed.

Lemma empty_context_iff_no_text_witness :
  exists chunks,
    outcome (retrieve Stub.w_no_chunks [py "refund"; py "policy"; py "return"] 4)
    = inr chunks
    /\ (chunks = [] \/ chunks = [[]]).
Proof.
  destruct (empty_context_iff_no_text Stub.w_no_chunks
              (Stub.request "what about refunds?")
              {| context := []; is_escalation := false |} eq_refl eq_refl)
    as (rw & tags & chunks & Hn & Ht & Hc & Hiff).
  injection Hn as <-. injection Ht as <-.
  exists chunks. split; [exact Hc|]. now apply Hiff.
Defined.

(** X18: the Normalizer's prompt does not keep history and question apart.
    A non-empty history that ends with the text of the separator and some
    [b] shows the Normalizer the same messages as the shorter history with
    [b] and the separator put before the question; so the Normalizer does
    the same on both. *)
Theorem history_can_pose_as_question (w : World) (a b c : pystr) :
  let sep := [newline; newline] ++ py "Latest:" ++ [newline] in
  a <> [] ->
  rewrite_msgs c (Some (a ++ sep ++ b)) = rewrite_msgs (b ++ sep ++ c) (Some a)
  /\ rewrite_and_detect w c (Some (a ++ sep ++ b))
     = rewrite_and_detect w (b ++ sep ++ c) (Some a).
Proof.
  intros sep Ha.
  assert (Hm : rewrite_msgs c (Some (a ++ sep ++ b))
               = rewrite_msgs (b ++ sep ++ c) (Some a)).
  { unfold rewrite_msgs, rewrite_user_content. do 3 f_equal.
    destruct a as [|x a]; [now destruct Ha|].
    simpl or_str. subst sep.
    repeat rewrite <- app_assoc. repeat rewrite <- app_comm_cons.
    repeat rewrite <- app_assoc. reflexivity. }
  split; [exact Hm|].
  rewrite !rewrite_and_detect_run. unfold normalizer_call. now rewrite Hm.
Qed.

Lemma history_can_pose_as_question_witness :
  rewrite_msgs (py "now?")
    (Some (py "hi" ++ ([newline; newline] ++ py "Latest:" ++ [newline])
           ++ py "get me a human"))
  = rewrite_msgs
      (py "get me a human" ++ ([newline; newline] ++ py "Latest:" ++ [newline])
       ++ py "now?")
      (Some (py "hi")).
Proof.
  refine (proj1 (history_can_pose_as_question Stub.w_chunks
                   (py "hi") (py "get me a human") (py "now?") _)).
  discriminate.
Defined.
